(** * Payments dashboard: the defensive data-normalisation pipeline

    A shallow embedding of the pure core of
    [app/dashboard/components/Payments.js]: the record normaliser
    [getSafeData], the sanitizers [safeToString], [safeFormatNumber],
    [safeFormatCurrency], [safeFormatDate] and [safePaymentMethod], the
    filter handler [handleFilterChange] and the filter [filteredPayments].

    JavaScript values are an inductive type, strings are sequences of UTF-16
    code units, abrupt completion ([throw]) is an explicit result, and the
    services of the engine that the source calls (number printing and parsing,
    locale formatting, date parsing, case mapping, the clock) are the fields
    of a [Host] record over which the development is parametric. *)

From Stdlib Require Import List Bool Arith ZArith NArith QArith Lia.
From Stdlib Require Import Ascii String DecimalString.
Import ListNotations.

Set Implicit Arguments.
Local Close Scope Q_scope.
Local Open Scope nat_scope.

(** ** Strings *)

(** A JavaScript string: its UTF-16 code units. *)
Definition jsstring := list N.

(** An ASCII literal of the source as a [jsstring]. *)
Definition lit (s : string) : jsstring :=
  map N_of_ascii (list_ascii_of_string s).

Fixpoint str_eqb (a b : jsstring) : bool :=
  match a, b with
  | [], [] => true
  | x :: a', y :: b' => N.eqb x y && str_eqb a' b'
  | _, _ => false
  end.

(** ** Numbers *)

(** A Number value: NaN, an infinity, or a finite value.  Finite doubles are
    rationals; the source only compares them with [0] and [100000000], which
    is exact.  [-0] is not distinguished from [0] (no comparison of the source
    tells them apart). *)
Inductive number : Type :=
| NaN
| Inf (negative : bool)
| Fin (q : Q).

Definition isNaN (n : number) : bool :=
  match n with NaN => true | _ => false end.

Definition isFinite (n : number) : bool :=
  match n with Fin _ => true | _ => false end.

(** [a < b] on Numbers: false as soon as one side is NaN. *)
Definition num_ltb (a b : number) : bool :=
  match a, b with
  | NaN, _ | _, NaN => false
  | Inf true, Inf true => false
  | Inf true, _ => true
  | _, Inf true => false
  | Inf false, _ => false
  | _, Inf false => true
  | Fin x, Fin y => negb (Qle_bool y x)
  end.

Definition num_gtb (a b : number) : bool := num_ltb b a.

Definition of_Z (z : Z) : number := Fin (inject_Z z).

(** ** Values *)

(** The values the component can be handed.  [JFun] is a built-in function
    object (reached through [Object.prototype]); [JThrower] stands for an
    exotic object every observation of which throws (a Proxy with throwing
    traps, an object whose accessors and conversion methods throw): it is the
    value that makes the [catch] arms of the source reachable. *)
#[warnings="-register-all"]
Inductive JsVal : Type :=
| JUndefined
| JNull
| JBool (b : bool)
| JNum (n : number)
| JStr (s : jsstring)
| JArr (elems : list JsVal)
| JObj (props : list (jsstring * JsVal))
| JFun (name : jsstring)
| JThrower.

Inductive JsType : Type :=
| TUndefined | TObject | TBoolean | TNumber | TString | TFunction.

Definition JsType_eqb (a b : JsType) : bool :=
  match a, b with
  | TUndefined, TUndefined | TObject, TObject | TBoolean, TBoolean
  | TNumber, TNumber | TString, TString | TFunction, TFunction => true
  | _, _ => false
  end.

(** [typeof v]. *)
Definition typeof (v : JsVal) : JsType :=
  match v with
  | JUndefined => TUndefined
  | JNull => TObject
  | JBool _ => TBoolean
  | JNum _ => TNumber
  | JStr _ => TString
  | JArr _ | JObj _ | JThrower => TObject
  | JFun _ => TFunction
  end.

(** [Array.isArray(v)]. *)
Definition isArray (v : JsVal) : bool :=
  match v with JArr _ => true | _ => false end.

(** ToBoolean: the falsy values are [undefined], [null], [false], [0], [NaN]
    and the empty string. *)
Definition truthy (v : JsVal) : bool :=
  match v with
  | JUndefined | JNull => false
  | JBool b => b
  | JNum NaN => false
  | JNum (Inf _) => true
  | JNum (Fin q) => negb (Qeq_bool q 0)
  | JStr [] => false
  | JStr (_ :: _) => true
  | JArr _ | JObj _ | JFun _ | JThrower => true
  end.

(** [v == null]. *)
Definition nullish (v : JsVal) : bool :=
  match v with JUndefined | JNull => true | _ => false end.

(** [a || b] on values. *)
Definition js_or (a b : JsVal) : JsVal := if truthy a then a else b.

(** ** Completions *)

(** The outcome of evaluating an expression: a value, or a thrown
    exception. *)
Inductive completion (A : Type) : Type :=
| Normal (a : A)
| Throw.
Arguments Normal {A} a.
Arguments Throw {A}.

Definition bind {A B : Type} (c : completion A) (k : A -> completion B)
  : completion B :=
  match c with
  | Normal a => k a
  | Throw => Throw
  end.

Notation "x <- c ;; k" := (bind c (fun x => k))
  (at level 61, c at next level, right associativity).

(** [try { body } catch (error) { return handler }]. *)
Definition try_catch {A : Type} (body : completion A) (handler : A) : A :=
  match body with
  | Normal a => a
  | Throw => handler
  end.

(** [array.map(f)] for a callback that may throw. *)
Fixpoint mapM {A B : Type} (f : A -> completion B) (l : list A)
  : completion (list B) :=
  match l with
  | [] => Normal []
  | x :: l' => y <- f x ;; ys <- mapM f l' ;; Normal (y :: ys)
  end.

(** [array.filter(p)] for a callback that may throw. *)
Fixpoint filterM {A : Type} (p : A -> completion bool) (l : list A)
  : completion (list A) :=
  match l with
  | [] => Normal []
  | x :: l' =>
      b <- p x ;; ys <- filterM p l' ;; Normal (if b then x :: ys else ys)
  end.

(** ** String primitives *)

(** WhiteSpace and LineTerminator code units, the ones [trim] removes. *)
Definition is_space (c : N) : bool :=
  existsb (N.eqb c)
    [9; 10; 11; 12; 13; 32; 160; 5760; 8232; 8233; 8239; 8287; 12288; 65279]%N
  || (N.leb 8192 c && N.leb c 8202).

Fixpoint drop_while (p : N -> bool) (s : jsstring) : jsstring :=
  match s with
  | [] => []
  | c :: s' => if p c then drop_while p s' else s
  end.

(** [s.trim()]. *)
Definition trim (s : jsstring) : jsstring :=
  rev (drop_while is_space (rev (drop_while is_space s))).

(** [s.substring(0, n)]. *)
Definition substring0 (n : nat) (s : jsstring) : jsstring := firstn n s.

(** The class [\w]. *)
Definition is_word (c : N) : bool :=
  (N.leb 48 c && N.leb c 57) || (N.leb 65 c && N.leb c 90)
  || (N.leb 97 c && N.leb c 122) || N.eqb c 95.

Definition ascii_lower (c : N) : N :=
  if N.leb 65 c && N.leb c 90 then (c + 32)%N else c.

(** Equality of code units under the [i] flag (no [u] flag): only the two
    ASCII cases of an ASCII letter are identified. *)
Definition ci_eqb (p c : N) : bool := N.eqb (ascii_lower p) (ascii_lower c).

(** [prefix eqb pat s]: when [s] starts with [pat] (up to [eqb]), what
    follows it. *)
Fixpoint prefix (eqb : N -> N -> bool) (pat s : jsstring) : option jsstring :=
  match pat, s with
  | [], _ => Some s
  | _ :: _, [] => None
  | p :: pat', c :: s' => if eqb p c then prefix eqb pat' s' else None
  end.

(** Length of the longest run of code units satisfying [p] at the head. *)
Fixpoint run (p : N -> bool) (s : jsstring) : nat :=
  match s with
  | c :: s' => if p c then S (run p s') else 0
  | [] => 0
  end.

(** From the position after the opening [<script] and its word boundary: the
    number of code units up to and including the first [</script>] (any
    case).  This is what the rest of the first pattern of [safeToString]
    consumes: a run without [<], then any number of groups made of one [<]
    that does not open [</script>] (the negative lookahead) and a run without
    [<], then [</script>].  The scan therefore stops at every [<], cannot go
    past one that opens [</script>], and nothing else ends the match. *)
Fixpoint find_close (s : jsstring) : option nat :=
  match prefix ci_eqb (lit "</script>") s with
  | Some _ => Some 9
  | None =>
      match s with
      | [] => None
      | _ :: s' => option_map S (find_close s')
      end
  end.

(** The first pattern of [safeToString] (flags [gi]) anchored at the head of
    [s]: [<script], a word boundary, the body and [</script>]; the length of
    the match. *)
Definition match_script (s : jsstring) : option nat :=
  match prefix ci_eqb (lit "<script") s with
  | None => None
  | Some rest =>
      if match rest with [] => true | c :: _ => negb (is_word c) end
      then option_map (fun n => 7 + n) (find_close rest)
      else None
  end.

Definition is_quote (c : N) : bool := N.eqb c 34 || N.eqb c 39.

(** The second pattern of [safeToString] (flag [g], case-sensitive) anchored
    at the head of [s]: [on], one or more word characters, [=], a quote
    (double or single), any run without quotes, a quote; the length of the
    match.  Both greedy runs are followed by a code unit outside their class,
    so no shorter run can match. *)
Definition match_handler (s : jsstring) : option nat :=
  match prefix N.eqb (lit "on") s with
  | None => None
  | Some rest =>
      let w := run is_word rest in
      match w, skipn w rest with
      | S _, eq :: q :: rest' =>
          if N.eqb eq 61 && is_quote q then
            let v := run (fun c => negb (is_quote c)) rest' in
            match skipn v rest' with
            | _ :: _ => Some (2 + w + 2 + v + 1)
            | [] => None
            end
          else None
      | _, _ => None
      end
  end.

(** [/javascript:/i] anchored at the head of [s]. *)
Definition match_javascript (s : jsstring) : option nat :=
  match prefix ci_eqb (lit "javascript:") s with
  | Some _ => Some 11
  | None => None
  end.

(** [s.replace(re, '')] for a global [re] whose matches are never empty:
    [m] is [re] anchored at the head of its argument and gives the length of
    the match.  The scan goes left to right and resumes after each match;
    [skip] counts the code units of the current match still to be dropped. *)
Fixpoint strip (m : jsstring -> option nat) (skip : nat) (s : jsstring)
  : jsstring :=
  match s with
  | [] => []
  | c :: s' =>
      match skip with
      | S k => strip m k s'
      | O =>
          match m s with
          | Some (S k) => strip m k s'
          | _ => c :: strip m 0 s'
          end
      end
  end.

Definition replace_all (m : jsstring -> option nat) (s : jsstring) : jsstring :=
  strip m 0 s.

(** ** Objects *)

Fixpoint own_property (props : list (jsstring * JsVal)) (k : jsstring)
  : option JsVal :=
  match props with
  | [] => None
  | (k', v) :: props' => if str_eqb k' k then Some v else own_property props' k
  end.

(** The names of the methods of [Object.prototype] other than
    [constructor]. *)
Definition OBJECT_PROTOTYPE_METHODS : list jsstring :=
  [lit "__defineGetter__"; lit "__defineSetter__"; lit "hasOwnProperty";
   lit "__lookupGetter__"; lit "__lookupSetter__"; lit "isPrototypeOf";
   lit "propertyIsEnumerable"; lit "toString"; lit "valueOf";
   lit "toLocaleString"].

(** What a plain object inherits under the name [k]: [constructor] is the
    function [Object], the methods are functions of their name, and the
    accessor [__proto__] gives [Object.prototype] itself, an object without
    enumerable own property, modelled as the empty object. *)
Definition inherited (k : jsstring) : JsVal :=
  if str_eqb k (lit "constructor") then JFun (lit "Object")
  else if str_eqb k (lit "__proto__") then JObj []
  else if existsb (str_eqb k) OBJECT_PROTOTYPE_METHODS then JFun k
  else JUndefined.

(** [o[k]] on a plain object (an object literal, an object of a parsed
    payload): the own property, else the inherited one. *)
Definition obj_get (props : list (jsstring * JsVal)) (k : jsstring) : JsVal :=
  match own_property props k with
  | Some v => v
  | None => inherited k
  end.

(** The objects, as opposed to the primitive values. *)
Definition is_object (v : JsVal) : bool :=
  match v with
  | JArr _ | JObj _ | JFun _ | JThrower => true
  | JUndefined | JNull | JBool _ | JNum _ | JStr _ => false
  end.

(** The built-in function [name] called without arguments as a method of the
    plain object with own properties [props], [toLocaleString] left aside.
    [Object] makes a new empty object; [toString] gives [[object Object]];
    [valueOf] gives the object; [hasOwnProperty] and [propertyIsEnumerable]
    convert their missing argument to the key [undefined] and look for that
    own property; [isPrototypeOf] gives [false] for an argument that is not
    an object; [__lookupGetter__] and [__lookupSetter__] find no accessor;
    [__defineGetter__] and [__defineSetter__] raise a TypeError, their
    argument not being callable.  No other name denotes a function of the
    model. *)
Definition call_basic (name : jsstring) (props : list (jsstring * JsVal))
  : completion JsVal :=
  if str_eqb name (lit "Object") then Normal (JObj [])
  else if str_eqb name (lit "toString")
  then Normal (JStr (lit "[object Object]"))
  else if str_eqb name (lit "valueOf") then Normal (JObj props)
  else if str_eqb name (lit "hasOwnProperty")
          || str_eqb name (lit "propertyIsEnumerable")
  then Normal (JBool (match own_property props (lit "undefined") with
                      | Some _ => true
                      | None => false
                      end))
  else if str_eqb name (lit "isPrototypeOf") then Normal (JBool false)
  else if str_eqb name (lit "__lookupGetter__")
          || str_eqb name (lit "__lookupSetter__")
  then Normal JUndefined
  else Throw.

(** The same for every built-in function: [toLocaleString] invokes the
    [toString] of the object, which raises a TypeError when that property is
    not callable and never returns when it is [toLocaleString] again (a
    RangeError). *)
Definition call_builtin (name : jsstring) (props : list (jsstring * JsVal))
  : completion JsVal :=
  if str_eqb name (lit "toLocaleString") then
    match obj_get props (lit "toString") with
    | JFun f =>
        if str_eqb f (lit "toLocaleString") then Throw else call_basic f props
    | _ => Throw
    end
  else call_basic name props.

(** One step of OrdinaryToPrimitive on a plain object: the property [name]
    is called when it is a function, and its result is kept when it is a
    primitive value; otherwise [next] is tried. *)
Definition try_method (props : list (jsstring * JsVal)) (name : jsstring)
           (next : completion JsVal) : completion JsVal :=
  match obj_get props name with
  | JFun f =>
      r <- call_builtin f props ;; if is_object r then next else Normal r
  | _ => next
  end.

(** ToPrimitive of a plain object: [toString] then [valueOf] under the hint
    [string], [valueOf] then [toString] under the hints [number] and
    [default]; a TypeError when neither gives a primitive value. *)
Definition ToPrimitive (string_hint : bool) (props : list (jsstring * JsVal))
  : completion JsVal :=
  if string_hint
  then try_method props (lit "toString") (try_method props (lit "valueOf") Throw)
  else try_method props (lit "valueOf") (try_method props (lit "toString") Throw).

(** [v.k] for the property names the source reads off its inputs ([payments],
    the raw and the canonical field names): none of them is defined on the
    built-in prototypes of booleans, numbers, strings, arrays or functions, so
    these give [undefined]; [undefined] and [null] raise a TypeError. *)
Definition read (v : JsVal) (k : jsstring) : completion JsVal :=
  match v with
  | JUndefined | JNull => Throw
  | JObj props => Normal (obj_get props k)
  | JThrower => Throw
  | JBool _ | JNum _ | JStr _ | JArr _ | JFun _ => Normal JUndefined
  end.

(** [v?.k]. *)
Definition read_opt (v : JsVal) (k : jsstring) : completion JsVal :=
  if nullish v then Normal JUndefined else read v k.

(** ** The host *)

(** The services of the engine and of its locale data that the source calls.
    [Number_toString] and [toLocaleString] are only applied to finite
    numbers; [toLocaleString] is [toLocaleString('en-IN')] and
    [toLocaleDateString] is [toLocaleDateString('en-IN', options)] with the
    options of [safeFormatDate], applied to a valid time value (milliseconds
    since the epoch); [Date_parse] gives [None] for an unparseable string;
    [now] is the reading of the clock, a valid time value. *)
Record Host : Type := {
  Number_toString : Q -> jsstring;
  StringToNumber : jsstring -> number;
  Function_toString : jsstring -> jsstring;
  toLowerCase : jsstring -> jsstring;
  toLocaleString : Q -> jsstring;
  Date_parse : jsstring -> option Z;
  toLocaleDateString : Z -> jsstring;
  now : Z;
  toLocaleDateString_nonempty : forall t, toLocaleDateString t <> []
}.

(** The default value of the parameter [currency]: the rupee sign U+20B9. *)
Definition RUPEE : jsstring := [8377%N].

(** The largest time value of a Date. *)
Definition MAX_TIME : Z := 8640000000000000.

(** TimeClip of a Number: the time value of [new Date(n)], [None] for an
    invalid date. *)
Definition TimeClip (n : number) : option Z :=
  match n with
  | NaN | Inf _ => None
  | Fin q =>
      let t := Z.quot (Qnum q) (Z.pos (Qden q)) in
      if Qle_bool (inject_Z (- MAX_TIME)) q && Qle_bool q (inject_Z MAX_TIME)
      then Some t else None
  end.

Section Pipeline.

Variable host : Host.

(** *** Conversions *)

Definition number_to_string (n : number) : jsstring :=
  match n with
  | NaN => lit "NaN"
  | Inf false => lit "Infinity"
  | Inf true => lit "-Infinity"
  | Fin q => Number_toString host q
  end.

(** The string of a primitive value. *)
Definition primitive_to_string (p : JsVal) : jsstring :=
  match p with
  | JUndefined => lit "undefined"
  | JNull => lit "null"
  | JBool true => lit "true"
  | JBool false => lit "false"
  | JNum n => number_to_string n
  | JStr s => s
  | JArr _ | JObj _ | JFun _ | JThrower => []
  end.

(** The Number of a primitive value. *)
Definition primitive_to_number (p : JsVal) : number :=
  match p with
  | JUndefined => NaN
  | JNull => of_Z 0
  | JBool true => of_Z 1
  | JBool false => of_Z 0
  | JNum n => n
  | JStr s => StringToNumber host s
  | JArr _ | JObj _ | JFun _ | JThrower => NaN
  end.

(** [String(v)].  An array is joined with commas, [undefined] and [null]
    elements giving the empty string; a plain object is converted to a
    primitive value under the hint [string], so that an object with an own
    property [toString] that is not a function raises a TypeError; a function
    gives its source text. *)
Fixpoint ToString (v : JsVal) : completion jsstring :=
  match v with
  | JUndefined => Normal (lit "undefined")
  | JNull => Normal (lit "null")
  | JBool true => Normal (lit "true")
  | JBool false => Normal (lit "false")
  | JNum n => Normal (number_to_string n)
  | JStr s => Normal s
  | JArr elems =>
      (fix join (l : list JsVal) : completion jsstring :=
         match l with
         | [] => Normal []
         | x :: l' =>
             a <- (if nullish x then Normal [] else ToString x) ;;
             match l' with
             | [] => Normal a
             | _ :: _ => b <- join l' ;; Normal (a ++ lit "," ++ b)
             end
         end) elems
  | JObj props => p <- ToPrimitive true props ;; Normal (primitive_to_string p)
  | JFun name => Normal (Function_toString host name)
  | JThrower => Throw
  end.

(** [Number(v)].  A plain object is converted to a primitive value under the
    hint [number], [valueOf] first; the [valueOf] of an array or of a
    function gives the object itself, so these go through their string. *)
Definition ToNumber (v : JsVal) : completion number :=
  match v with
  | JUndefined => Normal NaN
  | JNull => Normal (of_Z 0)
  | JBool true => Normal (of_Z 1)
  | JBool false => Normal (of_Z 0)
  | JNum n => Normal n
  | JStr s => Normal (StringToNumber host s)
  | JObj props => p <- ToPrimitive false props ;; Normal (primitive_to_number p)
  | JArr _ | JFun _ | JThrower =>
      s <- ToString v ;; Normal (StringToNumber host s)
  end.

(** [new Date(v).getTime()], [None] standing for NaN.  An object is converted
    to a primitive value under the hint [default], [valueOf] first (arrays
    and functions through their string, as for [Number]); a primitive value
    that is a string is parsed, any other is converted to a Number and
    clipped. *)
Definition new_Date (v : JsVal) : completion (option Z) :=
  match v with
  | JStr s => Normal (Date_parse host s)
  | JObj props =>
      p <- ToPrimitive false props ;;
      match p with
      | JStr s => Normal (Date_parse host s)
      | _ => Normal (TimeClip (primitive_to_number p))
      end
  | JArr _ | JFun _ | JThrower =>
      s <- ToString v ;; Normal (Date_parse host s)
  | JUndefined | JNull | JBool _ | JNum _ =>
      n <- ToNumber v ;; Normal (TimeClip n)
  end.

(** [num.toLocaleString('en-IN')]; the source only reaches it with a finite
    [num]. *)
Definition number_toLocaleString (n : number) : jsstring :=
  match n with
  | NaN => lit "NaN"
  | Inf false => [8734%N]
  | Inf true => [45%N; 8734%N]
  | Fin q => toLocaleString host q
  end.

(** [a === b] for a string [a]. *)
Definition strict_eq_str (a : jsstring) (b : JsVal) : bool :=
  match b with
  | JStr s => str_eqb a s
  | _ => false
  end.

(** *** Sanitizers *)

(** [safeToString(value, defaultValue)]; every call site passes a string as
    [defaultValue] or leaves it to its default, the empty string. *)
Definition safeToString (value : JsVal) (defaultValue : jsstring) : jsstring :=
  if nullish value then defaultValue
  else
    try_catch
      (s <- ToString value ;;
       let stringValue := trim s in
       Normal
         (substring0 500
            (replace_all match_javascript
               (replace_all match_handler
                  (replace_all match_script stringValue)))))
      defaultValue.

(** [safeFormatNumber(value, defaultValue)], [defaultValue] being ['N/A'] when
    left out. *)
Definition safeFormatNumber (value : JsVal) (defaultValue : jsstring)
  : jsstring :=
  if nullish value then defaultValue
  else
    try_catch
      (num <- ToNumber value ;;
       if isNaN num || negb (isFinite num) then Normal defaultValue
       else if num_ltb num (of_Z 0) || num_gtb num (of_Z 100000000)
       then Normal (lit "Invalid")
       else Normal (number_toLocaleString num))
      defaultValue.

(** [safeFormatCurrency(value, currency, defaultValue)], the defaults being
    [RUPEE] and ['N/A']. *)
Definition safeFormatCurrency (value : JsVal) (currency defaultValue : jsstring)
  : jsstring :=
  if nullish value then defaultValue
  else
    try_catch
      (num <- ToNumber value ;;
       if isNaN num || negb (isFinite num) then Normal defaultValue
       else if num_ltb num (of_Z 0) || num_gtb num (of_Z 100000000)
       then Normal (currency ++ lit "Invalid")
       else Normal (currency ++ number_toLocaleString num))
      defaultValue.

(** [safeFormatDate(dateString, defaultValue)], [defaultValue] being ['N/A']
    when left out. *)
Definition safeFormatDate (dateString : JsVal) (defaultValue : jsstring)
  : jsstring :=
  if negb (truthy dateString) then defaultValue
  else
    try_catch
      (date <- new_Date dateString ;;
       match date with
       | None => Normal defaultValue
       | Some t =>
           if Z.gtb t (now host + 86400000) then Normal (lit "Invalid Date")
           else Normal (toLocaleDateString host t)
       end)
      defaultValue.

Definition PAYMENT_METHODS : list (jsstring * JsVal) :=
  [(lit "credit_card", JStr (lit "Credit Card"));
   (lit "debit_card", JStr (lit "Debit Card"));
   (lit "upi", JStr (lit "UPI"));
   (lit "netbanking", JStr (lit "Net Banking"));
   (lit "wallet", JStr (lit "Digital Wallet"))].

(** [safePaymentMethod(method)]. *)
Definition safePaymentMethod (method : JsVal) : JsVal :=
  let safeMethod := toLowerCase host (safeToString method []) in
  js_or (obj_get PAYMENT_METHODS safeMethod)
        (JStr (safeToString method (lit "Unknown"))).

(** *** The record normaliser *)

Record SafeData : Type := { payments : list JsVal }.

Definition DEFAULT_DATA : SafeData := {| payments := [] |}.

(** The object literal of the [map] callback of [getSafeData]: each canonical
    field with the raw property it is read from, in the order of the
    source. *)
Definition FIELD_MAP : list (jsstring * jsstring) :=
  [(lit "id", lit "id");
   (lit "bookingId", lit "booking_id");
   (lit "amount", lit "amount");
   (lit "method", lit "method");
   (lit "status", lit "status");
   (lit "paidAt", lit "paid_at");
   (lit "gatewayId", lit "gatewayId");
   (lit "refundId", lit "refund_id");
   (lit "refundTime", lit "refund_time");
   (lit "apartmentTitle", lit "apartment_title");
   (lit "startDate", lit "start_date");
   (lit "endDate", lit "end_date")].

(** The [map] callback: the properties are read with [?.], in order. *)
Definition normalize (payment : JsVal) : completion JsVal :=
  fields <- mapM (fun f => v <- read_opt payment (snd f) ;; Normal (fst f, v))
                 FIELD_MAP ;;
  Normal (JObj fields).

(** The [filter] callback of [getSafeData]; [&&] and [||] evaluate their
    right operand only when needed. *)
Definition has_identity (payment : JsVal) : completion bool :=
  if negb (truthy payment) then Normal false
  else if negb (JsType_eqb (typeof payment) TObject) then Normal false
  else if isArray payment then Normal false
  else
    id <- read payment (lit "id") ;;
    if truthy id then Normal true
    else bookingId <- read payment (lit "bookingId") ;;
         Normal (truthy bookingId).

Definition getSafeData (data : JsVal) : SafeData :=
  try_catch
    (if negb (truthy data) || negb (JsType_eqb (typeof data) TObject)
        || isArray data
     then Normal DEFAULT_DATA
     else
       p <- read data (lit "payments") ;;
       match p with
       | JArr elems =>
           mapped <- mapM normalize elems ;;
           kept <- filterM has_identity mapped ;;
           Normal {| payments := kept |}
       | _ => Normal {| payments := payments DEFAULT_DATA |}
       end)
    DEFAULT_DATA.

(** *** The filter *)

Record FilterOption : Type := { id : jsstring; label : jsstring }.

Definition FILTERS : list FilterOption :=
  [{| id := lit "all"; label := lit "All" |};
   {| id := lit "paid"; label := lit "Paid" |};
   {| id := lit "refunded"; label := lit "Refunded" |};
   {| id := lit "failed"; label := lit "Failed" |}].

(** [handleFilterChange(newFilter)] as a step on the state [filter] of the
    component: the new state. *)
Definition handleFilterChange (filter newFilter : JsVal) : JsVal :=
  try_catch
    (if JsType_eqb (typeof newFilter) TString
        && existsb (fun f => strict_eq_str (id f) newFilter) FILTERS
     then Normal newFilter
     else Normal filter)
    filter.

(** The state of the component after a sequence of filter requests, starting
    from [useState('all')]. *)
Definition filter_after (requests : list JsVal) : JsVal :=
  fold_left handleFilterChange requests (JStr (lit "all")).

(** The callback of [filteredPayments]. *)
Definition visible (filter payment : JsVal) : bool :=
  if negb (truthy payment) || negb (JsType_eqb (typeof payment) TObject)
  then false
  else
    try_catch
      (if strict_eq_str (lit "all") filter then Normal true
       else
         status <- read payment (lit "status") ;;
         let paymentStatus := safeToString status [] in
         Normal (strict_eq_str paymentStatus filter))
      false.

Definition filteredPayments (safeData : SafeData) (filter : JsVal)
  : list JsVal :=
  List.filter (visible filter) (payments safeData).

End Pipeline.

(** ** A concrete host

    An instance of [Host] on which the pipeline runs: ASCII case mapping,
    decimal literals without exponent, [en-IN] digit grouping (three digits,
    then groups of two) with at most three fraction digits, ISO calendar dates
    and the UTC time zone.  It is used to evaluate the pipeline on concrete
    payloads; the theorems hold for every host. *)
Module UtcHost.

Local Open Scope Z_scope.

Definition dec (n : Z) : jsstring :=
  lit (NilEmpty.string_of_uint (N.to_uint (Z.to_N n))).

Definition pad2 (n : Z) : jsstring :=
  if n <? 10 then lit "0" ++ dec n else dec n.

Fixpoint fraction_digits (fuel : nat) (r den : Z) : jsstring :=
  match fuel with
  | O => []
  | S fuel' =>
      if r =? 0 then []
      else dec (10 * r / den) ++ fraction_digits fuel' (10 * r mod den) den
  end.

Definition Number_toString (q : Q) : jsstring :=
  let n := Z.abs (Qnum q) in
  let d := Z.pos (Qden q) in
  (if Qnum q <? 0 then lit "-" else [])
  ++ dec (n / d)
  ++ (if n mod d =? 0 then [] else lit "." ++ fraction_digits 40 (n mod d) d).

Definition digit_value (c : N) : option Z :=
  if (N.leb 48 c && N.leb c 57)%bool then Some (Z.of_N c - 48) else None.

(** The digits at the head of [s]: their value, their number, the rest. *)
Fixpoint read_digits (acc : Z) (count : nat) (s : jsstring)
  : Z * nat * jsstring :=
  match s with
  | c :: s' =>
      match digit_value c with
      | Some d => read_digits (10 * acc + d) (S count) s'
      | None => (acc, count, s)
      end
  | [] => (acc, count, s)
  end.

Definition unsigned_literal (s : jsstring) : number :=
  if str_eqb s (lit "Infinity") then Inf false
  else
    let '(i, ni, rest) := read_digits 0 0 s in
    match rest with
    | [] => if Nat.eqb ni 0 then NaN else Fin (inject_Z i)
    | 46%N :: frac =>
        let '(f, nf, rest') := read_digits 0 0 frac in
        match rest' with
        | [] =>
            if (Nat.eqb ni 0 && Nat.eqb nf 0)%bool then NaN
            else Fin (Qred (Qmake (i * 10 ^ Z.of_nat nf + f)
                                  (Z.to_pos (10 ^ Z.of_nat nf))))
        | _ :: _ => NaN
        end
    | _ :: _ => NaN
    end.

Definition negate (n : number) : number :=
  match n with
  | NaN => NaN
  | Inf b => Inf (negb b)
  | Fin q => Fin (Qopp q)
  end.

Definition StringToNumber (s : jsstring) : number :=
  match trim s with
  | [] => Fin 0
  | 45%N :: s' => negate (unsigned_literal s')
  | 43%N :: s' => unsigned_literal s'
  | s' => unsigned_literal s'
  end.

Definition Function_toString (name : jsstring) : jsstring :=
  lit "function " ++ name ++ lit "() { [native code] }".

Definition toLowerCase (s : jsstring) : jsstring := map ascii_lower s.

(** The digits of the integer part, least significant first, with the
    separators of the groups of two that follow the first three. *)
Fixpoint group2 (l : jsstring) : jsstring :=
  match l with
  | a :: b :: ((_ :: _) as rest) => a :: b :: 44%N :: group2 rest
  | _ => l
  end.

Definition group_en_IN (digits : jsstring) : jsstring :=
  match rev digits with
  | a :: b :: c :: ((_ :: _) as rest) =>
      rev (a :: b :: c :: 44%N :: group2 rest)
  | _ => digits
  end.

Fixpoint strip_zeros (l : jsstring) : jsstring :=
  match l with
  | 48%N :: l' => strip_zeros l'
  | _ => l
  end.

Definition toLocaleString (q : Q) : jsstring :=
  let n := Z.abs (Qnum q) in
  let d := Z.pos (Qden q) in
  let r := (2 * n * 1000 + d) / (2 * d) in
  let frac := r mod 1000 in
  let f := rev (strip_zeros
                  (rev (dec (frac / 100) ++ dec (frac / 10 mod 10)
                        ++ dec (frac mod 10)))) in
  (if Qnum q <? 0 then lit "-" else [])
  ++ group_en_IN (dec (r / 1000))
  ++ (match f with [] => [] | _ :: _ => lit "." ++ f end).

Definition days_from_civil (y m d : Z) : Z :=
  let y := if m <=? 2 then y - 1 else y in
  let era := y / 400 in
  let yoe := y - era * 400 in
  let doy := (153 * (if 2 <? m then m - 3 else m + 9) + 2) / 5 + d - 1 in
  let doe := yoe * 365 + yoe / 4 - yoe / 100 + doy in
  era * 146097 + doe - 719468.

Definition civil_from_days (z : Z) : Z * Z * Z :=
  let z := z + 719468 in
  let era := z / 146097 in
  let doe := z - era * 146097 in
  let yoe := (doe - doe / 1460 + doe / 36524 - doe / 146096) / 365 in
  let doy := doe - (365 * yoe + yoe / 4 - yoe / 100) in
  let mp := (5 * doy + 2) / 153 in
  let d := doy - (153 * mp + 2) / 5 + 1 in
  let m := if mp <? 10 then mp + 3 else mp - 9 in
  ((if m <=? 2 then yoe + era * 400 + 1 else yoe + era * 400), m, d).

(** A calendar date [YYYY-MM-DD], taken at midnight UTC. *)
Definition Date_parse (s : jsstring) : option Z :=
  let '(y, ny, r1) := read_digits 0 0 s in
  match r1 with
  | 45%N :: s2 =>
      let '(m, nm, r2) := read_digits 0 0 s2 in
      match r2 with
      | 45%N :: s3 =>
          let '(d, nd, r3) := read_digits 0 0 s3 in
          match r3 with
          | [] =>
              if (Nat.eqb ny 4 && Nat.eqb nm 2 && Nat.eqb nd 2
                  && (1 <=? m) && (m <=? 12) && (1 <=? d) && (d <=? 31))%bool
              then Some (days_from_civil y m d * 86400000)
              else None
          | _ :: _ => None
          end
      | _ => None
      end
  | _ => None
  end.

Definition MONTHS : list jsstring :=
  [lit "Jan"; lit "Feb"; lit "Mar"; lit "Apr"; lit "May"; lit "Jun";
   lit "Jul"; lit "Aug"; lit "Sep"; lit "Oct"; lit "Nov"; lit "Dec"].

Definition toLocaleDateString (t : Z) : jsstring :=
  let '(y, m, d) := civil_from_days (t / 86400000) in
  let minutes := t mod 86400000 / 60000 in
  let h := minutes / 60 in
  let h12 := if h mod 12 =? 0 then 12 else h mod 12 in
  dec d ++ lit " " ++ nth (Z.to_nat (m - 1)) MONTHS []
  ++ lit " " ++ dec y ++ lit ", " ++ pad2 h12 ++ lit ":"
  ++ pad2 (minutes mod 60) ++ (if h <? 12 then lit " am" else lit " pm").

Definition host : Host.
Proof.
  refine (Build_Host Number_toString StringToNumber Function_toString
            toLowerCase toLocaleString Date_parse toLocaleDateString
            1767225600000 _).
  intros t. unfold toLocaleDateString.
  destruct (civil_from_days (t / 86400000)) as [[y m] d].
  intro H. apply app_eq_nil in H. destruct H as [_ H]. discriminate H.
Defined.

End UtcHost.

(** ** What the normaliser computes, stated on values *)

(** [payment?.k] as a value, for a [payment] whose reads do not throw. *)
Definition field (payment : JsVal) (k : jsstring) : JsVal :=
  match payment with
  | JObj props => obj_get props k
  | _ => JUndefined
  end.

(** The canonical record of a raw entry. *)
Definition record_of (payment : JsVal) : JsVal :=
  JObj (map (fun f => (fst f, field payment (snd f))) FIELD_MAP).

(** The identity test on a raw entry: [id] or [booking_id] is truthy. *)
Definition identified (payment : JsVal) : bool :=
  truthy (field payment (lit "id")) || truthy (field payment (lit "booking_id")).

(** The names of the fields of a canonical record. *)
Definition CANONICAL_FIELDS : list jsstring :=
  [lit "id"; lit "bookingId"; lit "amount"; lit "method"; lit "status";
   lit "paidAt"; lit "gatewayId"; lit "refundId"; lit "refundTime";
   lit "apartmentTitle"; lit "startDate"; lit "endDate"].

(** A payload [{ payments: entries }]. *)
Definition payload (entries : list JsVal) : JsVal :=
  JObj [(lit "payments", JArr entries)].

(** [contains m s]: the pattern [m] matches somewhere in [s]. *)
Fixpoint contains (m : jsstring -> option nat) (s : jsstring) : bool :=
  match m s with
  | Some _ => true
  | None =>
      match s with
      | [] => false
      | _ :: s' => contains m s'
      end
  end.

(** The selector is the identifier of one of the [FILTERS]. *)
Definition is_selector (filter : JsVal) : Prop :=
  exists f, In f FILTERS /\ filter = JStr (id f).

(** ** The helpers of the component *)

Section Component.

Variable host : Host.

(** [getPaymentProperty(payment, property, defaultValue)], [defaultValue]
    being the empty string when left out; the source calls it with the
    canonical field names. *)
Definition getPaymentProperty (payment : JsVal) (property : jsstring)
           (defaultValue : JsVal) : JsVal :=
  if negb (truthy payment) || negb (JsType_eqb (typeof payment) TObject)
  then defaultValue
  else
    try_catch
      (value <- read payment property ;;
       Normal (if nullish value then defaultValue else value))
      defaultValue.

(** [getSafePaymentId(payment)].  [random] is the placeholder drawn by
    [Math.random().toString(36).substr(2, 9)], an input of the model. *)
Definition getSafePaymentId (random : jsstring) (payment : JsVal) : jsstring :=
  try_catch
    (let id := getPaymentProperty payment (lit "id") (JStr []) in
     let bookingId := getPaymentProperty payment (lit "bookingId") (JStr []) in
     if truthy id then Normal (safeToString host id [])
     else if truthy bookingId
     then Normal (lit "payment-" ++ safeToString host bookingId [])
     else Normal (lit "payment-" ++ random))
    (lit "payment-" ++ random).

Definition STATUS_COLORS : list (jsstring * JsVal) :=
  [(lit "paid",
    JStr (lit "bg-green-900/20 text-green-400 border border-green-800/30"));
   (lit "refunded",
    JStr (lit "bg-blue-900/20 text-blue-400 border border-blue-800/30"));
   (lit "cancelled",
    JStr (lit "bg-red-900/20 text-red-400 border border-red-800/30"));
   (lit "failed",
    JStr (lit "bg-gray-700 text-gray-300 border border-gray-600"))].

(** The style of a status without an entry in [STATUS_COLORS]. *)
Definition NEUTRAL_COLOR : jsstring :=
  lit "bg-gray-700 text-gray-300 border border-gray-600".

(** [getStatusColor(status)]. *)
Definition getStatusColor (status : JsVal) : JsVal :=
  let safeStatus := safeToString host status [] in
  js_or (obj_get STATUS_COLORS safeStatus) (JStr NEUTRAL_COLOR).

(** What a receipt action asks of the browser: [window.open(url, target)];
    a temporary anchor with the attributes [href] and [download], appended to
    the document, clicked and removed; [alert(message)]. *)
Inductive Effect : Type :=
| WindowOpen (url target : jsstring)
| AnchorDownload (href download : jsstring)
| Alert (message : jsstring).

(** [handleReceiptAction(paymentId, action)]: the requests it makes, in
    order.  The calls to the browser do not throw in the model, so the
    [catch] arm, which alerts, is not taken. *)
Definition handleReceiptAction (paymentId action : JsVal) : list Effect :=
  try_catch
    (let safePaymentId := safeToString host paymentId [] in
     let url := lit "/api/receipt/" ++ safePaymentId in
     if strict_eq_str (lit "view") action
     then Normal [WindowOpen url (lit "_blank")]
     else if strict_eq_str (lit "download") action
     then Normal [AnchorDownload url
                    (lit "Rooms4U_Receipt_" ++ safePaymentId ++ lit ".pdf")]
     else Normal [])
    [Alert (lit "Failed to generate receipt. Please try again.")].

(** The two titles of the empty-state card of [Payments]. *)
Inductive EmptyState : Type :=
| NoPaymentsAvailable
| NoPaymentsFound.

(** The conditional at the end of [Payments], for the payload [data] and the
    selector [filter]: the title of the empty-state card when no payment is
    visible, [None] when the grid branch is taken.  The cards of the grid are
    built by [renderPaymentCard], which is not part of the model. *)
Definition empty_state (data filter : JsVal) : option EmptyState :=
  let safeData := getSafeData data in
  match filteredPayments host safeData filter with
  | [] =>
      match payments safeData with
      | [] => Some NoPaymentsAvailable
      | _ :: _ => Some NoPaymentsFound
      end
  | _ :: _ => None
  end.

End Component.

(** A request that [handleFilterChange] accepts. *)
Definition valid_request (request : JsVal) : bool :=
  JsType_eqb (typeof request) TString
  && existsb (fun f => strict_eq_str (id f) request) FILTERS.

(** Code units other than [<], [=] and [:], which every pattern of
    [safeToString] needs. *)
Definition plain_unit (c : N) : bool :=
  negb (N.eqb c 60 || N.eqb c 61 || N.eqb c 58).

Definition plain_text (s : jsstring) : bool := forallb plain_unit s.

(** Two raw entries with the same reads of the properties of [FIELD_MAP]. *)
Definition same_raw_fields (e e' : JsVal) : Prop :=
  forall f, In f FIELD_MAP -> read_opt e (snd f) = read_opt e' (snd f).

(** ** Basic facts *)

Lemma str_eqb_refl (a : jsstring) : str_eqb a a = true.
Proof.
  induction a as [|x a IH]; simpl; [reflexivity|].
  now rewrite N.eqb_refl.
Qed.

Lemma str_eqb_eq (a b : jsstring) : str_eqb a b = true <-> a = b.
Proof.
  split.
  - revert b; induction a as [|x a IH]; intros [|y b] H; simpl in H;
      try discriminate; [reflexivity|].
    apply andb_true_iff in H. destruct H as [Hx Hab].
    apply N.eqb_eq in Hx. subst y. f_equal. now apply IH.
  - intros ->. apply str_eqb_refl.
Qed.

Lemma strict_eq_str_eq (a : jsstring) (v : JsVal) :
  strict_eq_str a v = true <-> v = JStr a.
Proof.
  destruct v; simpl; try (split; [discriminate | intro H; discriminate H]).
  rewrite str_eqb_eq. split; [intros -> | intros [= ->]]; reflexivity.
Qed.

Section MonadicLists.

Variables A B : Type.

Lemma mapM_pure (f : A -> completion B) (g : A -> B) (l : list A) :
  (forall x, In x l -> f x = Normal (g x)) -> mapM f l = Normal (map g l).
Proof.
  induction l as [|x l IH]; intros H; simpl; [reflexivity|].
  rewrite (H x (or_introl eq_refl)). simpl.
  rewrite IH by (intros y Hy; apply H; now right). reflexivity.
Qed.

Lemma mapM_throw (f : A -> completion B) (l : list A) (x : A) :
  In x l -> f x = Throw -> mapM f l = Throw.
Proof.
  induction l as [|y l IH]; intros Hin Hx; simpl; [contradiction|].
  destruct Hin as [-> | Hin].
  - now rewrite Hx.
  - destruct (f y); simpl; [|reflexivity]. now rewrite (IH Hin Hx).
Qed.

Lemma filterM_pure (p : A -> completion bool) (q : A -> bool) (l : list A) :
  (forall x, In x l -> p x = Normal (q x)) ->
  filterM p l = Normal (List.filter q l).
Proof.
  induction l as [|x l IH]; intros H; simpl; [reflexivity|].
  rewrite (H x (or_introl eq_refl)). simpl.
  rewrite IH by (intros y Hy; apply H; now right). reflexivity.
Qed.

End MonadicLists.

Lemma mapM_ext (A B : Type) (f g : A -> completion B) (l : list A) :
  (forall x, In x l -> f x = g x) -> mapM f l = mapM g l.
Proof.
  induction l as [|x l IH]; intros H; simpl; [reflexivity|].
  rewrite (H x (or_introl eq_refl)), IH; [reflexivity|].
  intros y Hy. apply H. now right.
Qed.

Lemma filter_map_comm (A B : Type) (f : A -> B) (q : B -> bool) (l : list A) :
  List.filter q (map f l) = map f (List.filter (fun x => q (f x)) l).
Proof.
  induction l as [|x l IH]; simpl; [reflexivity|].
  destruct (q (f x)); simpl; now rewrite IH.
Qed.

(** ** The normaliser, entry by entry *)

Lemma read_opt_field (payment : JsVal) (k : jsstring) :
  payment <> JThrower -> read_opt payment k = Normal (field payment k).
Proof.
  intros H. destruct payment; try reflexivity. now elim H.
Qed.

Lemma normalize_record_of (payment : JsVal) :
  payment <> JThrower -> normalize payment = Normal (record_of payment).
Proof.
  intros H. unfold normalize, record_of.
  rewrite mapM_pure with (g := fun f => (fst f, field payment (snd f))).
  - reflexivity.
  - intros f _. now rewrite read_opt_field.
Qed.

Lemma normalize_thrower : normalize JThrower = Throw.
Proof. reflexivity. Qed.

Lemma mapM_normalize (elems : list JsVal) :
  Forall (fun e => e <> JThrower) elems ->
  mapM normalize elems = Normal (map record_of elems).
Proof.
  intros H. apply mapM_pure. intros x Hx. apply normalize_record_of.
  rewrite Forall_forall in H. now apply H.
Qed.

Lemma has_identity_obj (props : list (jsstring * JsVal)) :
  has_identity (JObj props)
  = Normal (truthy (obj_get props (lit "id"))
            || truthy (obj_get props (lit "bookingId"))).
Proof.
  unfold has_identity. cbn [truthy typeof isArray negb JsType_eqb read bind].
  destruct (truthy (obj_get props (lit "id"))); reflexivity.
Qed.

Lemma has_identity_record_of (payment : JsVal) :
  has_identity (record_of payment) = Normal (identified payment).
Proof.
  unfold record_of. rewrite has_identity_obj. reflexivity.
Qed.

Lemma filterM_has_identity (elems : list JsVal) :
  filterM has_identity (map record_of elems)
  = Normal (map record_of (List.filter identified elems)).
Proof.
  rewrite filterM_pure with (q := fun r => truthy (field r (lit "id"))
                                         || truthy (field r (lit "bookingId"))).
  - f_equal. rewrite filter_map_comm. reflexivity.
  - intros r Hr. apply in_map_iff in Hr. destruct Hr as [e [<- _]].
    apply has_identity_record_of.
Qed.

Lemma normalize_inv (payment r : JsVal) :
  normalize payment = Normal r -> payment <> JThrower /\ r = record_of payment.
Proof.
  intros H. assert (Hp : payment <> JThrower).
  { intros ->. rewrite normalize_thrower in H. discriminate H. }
  split; [exact Hp|]. rewrite (normalize_record_of Hp) in H.
  now injection H as <-.
Qed.

Lemma mapM_normalize_inv (elems l : list JsVal) :
  mapM normalize elems = Normal l ->
  Forall (fun e => e <> JThrower) elems /\ l = map record_of elems.
Proof.
  revert l. induction elems as [|x elems IH]; intros l H; simpl in H.
  - injection H as <-. split; [constructor | reflexivity].
  - destruct (normalize x) as [r|] eqn:Hx; simpl in H; [|discriminate H].
    destruct (mapM normalize elems) as [rs|]; simpl in H; [|discriminate H].
    injection H as <-. apply normalize_inv in Hx. destruct Hx as [Hx ->].
    destruct (IH rs eq_refl) as [Hall ->].
    split; [now constructor | reflexivity].
Qed.

Lemma getSafeData_not_object (data : JsVal) :
  JsType_eqb (typeof data) TObject = false -> getSafeData data = DEFAULT_DATA.
Proof.
  intros H. unfold getSafeData. rewrite H. cbn [negb].
  now rewrite orb_true_r.
Qed.

Lemma getSafeData_obj (props : list (jsstring * JsVal)) :
  getSafeData (JObj props)
  = try_catch
      (match obj_get props (lit "payments") with
       | JArr elems =>
           mapped <- mapM normalize elems ;;
           kept <- filterM has_identity mapped ;;
           Normal {| payments := kept |}
       | _ => Normal DEFAULT_DATA
       end)
      DEFAULT_DATA.
Proof.
  unfold getSafeData. cbn [truthy typeof isArray negb JsType_eqb orb read bind].
  destruct (obj_get props (lit "payments")); reflexivity.
Qed.

Lemma getSafeData_entries (props : list (jsstring * JsVal))
      (entries : list JsVal) :
  obj_get props (lit "payments") = JArr entries ->
  Forall (fun e => e <> JThrower) entries ->
  payments (getSafeData (JObj props))
  = map record_of (List.filter identified entries).
Proof.
  intros Hp Hall. rewrite getSafeData_obj, Hp, (mapM_normalize Hall).
  cbn [bind]. rewrite filterM_has_identity. reflexivity.
Qed.

(** One entry whose reads throw empties the whole record set: the exception
    leaves [map] and reaches the [catch] of [getSafeData]. *)
Lemma getSafeData_thrower_entry (props : list (jsstring * JsVal))
      (entries : list JsVal) :
  obj_get props (lit "payments") = JArr entries ->
  In JThrower entries ->
  getSafeData (JObj props) = DEFAULT_DATA.
Proof.
  intros Hp Hin. rewrite getSafeData_obj, Hp.
  now rewrite (mapM_throw normalize entries JThrower Hin normalize_thrower).
Qed.

(** Whatever the payload, the record set is the image of the identified
    entries of some list of raw entries. *)
Lemma getSafeData_cases (data : JsVal) :
  exists entries,
    payments (getSafeData data) = map record_of (List.filter identified entries).
Proof.
  destruct data as [| |b|n|s|elems|props|name|];
    try (exists []; reflexivity);
    try (exists []; now rewrite getSafeData_not_object).
  rewrite getSafeData_obj.
    destruct (obj_get props (lit "payments")) as [| |b|n|s|entries|ps|nm|];
      try (exists []; reflexivity).
  destruct (mapM normalize entries) as [l|] eqn:Hm.
  - apply mapM_normalize_inv in Hm. destruct Hm as [_ ->].
    exists entries. cbn [bind]. now rewrite filterM_has_identity.
  - exists []. reflexivity.
Qed.

Lemma own_property_None (fields : list (jsstring * JsVal)) (k : jsstring) :
  ~ In k (map fst fields) -> own_property fields k = None.
Proof.
  induction fields as [|[k' v] fields IH]; intros H; simpl; [reflexivity|].
  destruct (str_eqb k' k) eqn:E.
  - apply str_eqb_eq in E. elim H. now left.
  - apply IH. intros Hin. apply H. now right.
Qed.

Lemma record_of_fields (payment : JsVal) :
  exists fields,
    record_of payment = JObj fields /\ map fst fields = CANONICAL_FIELDS.
Proof.
  eexists. split; [reflexivity|]. rewrite map_map. reflexivity.
Qed.

Lemma record_of_identified (e e' : JsVal) :
  record_of e' = record_of e -> identified e' = identified e.
Proof.
  unfold record_of, identified. cbn [map FIELD_MAP fst snd].
  intros H. injection H as H1 H2 _. now rewrite H1, H2.
Qed.

(** ** The sanitizers contain their failures *)

Section SanitizerFacts.

Variable host : Host.

Lemma safeToString_nullish (value : JsVal) (d : jsstring) :
  nullish value = true -> safeToString host value d = d.
Proof. intros H. unfold safeToString. now rewrite H. Qed.

Lemma safeToString_catch (value : JsVal) (d : jsstring) :
  ToString host value = Throw -> safeToString host value d = d.
Proof.
  intros H. unfold safeToString. rewrite H. now destruct (nullish value).
Qed.

Lemma safeFormatNumber_catch (value : JsVal) (d : jsstring) :
  ToNumber host value = Throw -> safeFormatNumber host value d = d.
Proof.
  intros H. unfold safeFormatNumber. rewrite H. now destruct (nullish value).
Qed.

Lemma safeFormatCurrency_catch (value : JsVal) (currency d : jsstring) :
  ToNumber host value = Throw -> safeFormatCurrency host value currency d = d.
Proof.
  intros H. unfold safeFormatCurrency. rewrite H. now destruct (nullish value).
Qed.

Lemma safeFormatDate_catch (value : JsVal) (d : jsstring) :
  new_Date host value = Throw -> safeFormatDate host value d = d.
Proof.
  intros H. unfold safeFormatDate. rewrite H.
  now destruct (negb (truthy value)).
Qed.

Lemma strip_length (m : jsstring -> option nat) (s : jsstring) (skip : nat) :
  List.length (strip m skip s) <= List.length s.
Proof.
  revert skip. induction s as [|c s IH]; intros skip; simpl; [lia|].
  destruct skip as [|k].
  - destruct (m (c :: s)) as [[|k]|]; simpl;
      try (specialize (IH 0); lia). specialize (IH k). lia.
  - specialize (IH k). lia.
Qed.

(** The cap of [safeToString]: unless the default is returned, the result
    has at most 500 code units. *)
Lemma safeToString_length (value : JsVal) (d s : jsstring) :
  nullish value = false -> ToString host value = Normal s ->
  List.length (safeToString host value d) <= 500.
Proof.
  intros Hn Hs. unfold safeToString. rewrite Hn, Hs. cbn [bind try_catch].
  unfold substring0. rewrite length_firstn. lia.
Qed.

End SanitizerFacts.

(** ** Lists and filters *)

Lemma filter_idempotent (A : Type) (f : A -> bool) (l : list A) :
  List.filter f (List.filter f l) = List.filter f l.
Proof.
  induction l as [|x l IH]; simpl; [reflexivity|].
  destruct (f x) eqn:E; simpl; [rewrite E|]; now rewrite IH.
Qed.

Lemma filter_all (A : Type) (f : A -> bool) (l : list A) :
  (forall x, In x l -> f x = true) -> List.filter f l = l.
Proof.
  induction l as [|x l IH]; intros H; simpl; [reflexivity|].
  rewrite (H x (or_introl eq_refl)). f_equal. apply IH.
  intros y Hy. apply H. now right.
Qed.

Lemma visible_all (host : Host) (props : list (jsstring * JsVal)) :
  visible host (JStr (lit "all")) (JObj props) = true.
Proof. reflexivity. Qed.

Lemma visible_status (host : Host) (filter : JsVal)
      (props : list (jsstring * JsVal)) :
  filter <> JStr (lit "all") ->
  visible host filter (JObj props)
  = strict_eq_str (safeToString host (obj_get props (lit "status")) []) filter.
Proof.
  intros H. unfold visible. cbn [truthy typeof JsType_eqb negb orb].
  destruct (strict_eq_str (lit "all") filter) eqn:E.
  - apply strict_eq_str_eq in E. contradiction.
  - reflexivity.
Qed.

(** ** The filter selector *)

Lemma handleFilterChange_accepts (filter : JsVal) (f : FilterOption) :
  In f FILTERS -> handleFilterChange filter (JStr (id f)) = JStr (id f).
Proof.
  intros H. unfold handleFilterChange. cbn [typeof JsType_eqb andb].
  assert (E : existsb (fun g => strict_eq_str (id g) (JStr (id f))) FILTERS
              = true).
  { apply existsb_exists. exists f. split; [exact H|]. apply str_eqb_refl. }
  now rewrite E.
Qed.

Lemma handleFilterChange_cases (filter newFilter : JsVal) :
  (is_selector newFilter /\ handleFilterChange filter newFilter = newFilter)
  \/ (~ is_selector newFilter /\ handleFilterChange filter newFilter = filter).
Proof.
  unfold handleFilterChange.
  destruct (existsb (fun f => strict_eq_str (id f) newFilter) FILTERS) eqn:E.
  - apply existsb_exists in E. destruct E as [f [Hf E]].
    apply strict_eq_str_eq in E. subst newFilter. left. split.
    + now exists f.
    + reflexivity.
  - right. split.
    + intros [f [Hf ->]].
      assert (E' : existsb (fun g => strict_eq_str (id g) (JStr (id f)))
                     FILTERS = true).
      { apply existsb_exists. exists f. split; [exact Hf|]. apply str_eqb_refl. }
      rewrite E' in E. discriminate E.
    + now rewrite andb_false_r.
Qed.

Lemma fold_handleFilterChange (requests : list JsVal) (filter : JsVal) :
  is_selector filter -> is_selector (fold_left handleFilterChange requests filter).
Proof.
  revert filter. induction requests as [|r requests IH]; intros filter H;
    simpl; [exact H|].
  apply IH. destruct (handleFilterChange_cases filter r) as [[Hr ->] | [_ ->]];
    assumption.
Qed.

(** ** The record normaliser: identity and shape *)

(** C1, as the source has it: when the payload is an object whose [payments]
    is an array none of whose entries throws on a read, the normalised record
    set is, in input order, one canonical record for each entry whose [id] or
    [booking_id] is truthy, and nothing else; in particular an entry without
    a truthy identity field (one lacking both) has no record in the set. *)
Theorem getSafeData_identified_entries
        (props : list (jsstring * JsVal)) (entries : list JsVal) :
  obj_get props (lit "payments") = JArr entries ->
  Forall (fun e => e <> JThrower) entries ->
  payments (getSafeData (JObj props))
  = map record_of (List.filter identified entries)
  /\ (forall e, In e entries -> identified e = false ->
       ~ In (record_of e) (payments (getSafeData (JObj props)))).
Proof.
  intros Hp Hall. rewrite (getSafeData_entries props Hp Hall).
  split; [reflexivity|]. intros e _ He Hin.
  apply in_map_iff in Hin. destruct Hin as [e' [Heq Hin']].
  apply filter_In in Hin'. destruct Hin' as [_ He'].
  rewrite (record_of_identified Heq), He in He'. discriminate He'.
Qed.

(** C1 at a payload of two entries, the first with a [booking_id] only. *)
Lemma getSafeData_identified_entries_witness :
  let e1 := JObj [(lit "booking_id", JStr (lit "b1"))] in
  let e2 := JObj [(lit "amount", JNum (of_Z 5))] in
  payments (getSafeData (payload [e1; e2])) = [record_of e1].
Proof.
  intros e1 e2.
  refine (proj1 (@getSafeData_identified_entries
                   [(lit "payments", JArr [e1; e2])] [e1; e2] eq_refl _)).
  repeat constructor; discriminate.
Defined.

(** C1 as stated fails: the entry [{ id: 0 }] has the identity field [id]
    present and not null, and yet no record at all is produced for it. *)
Lemma getSafeData_drops_falsy_id :
  let entry := JObj [(lit "id", JNum (of_Z 0))] in
  own_property [(lit "id", JNum (of_Z 0))] (lit "id") = Some (JNum (of_Z 0))
  /\ nullish (JNum (of_Z 0)) = false
  /\ payments (getSafeData (payload [entry])) = [].
Proof. repeat split. Qed.

(** C5: a payload that is not a non-array object, or whose [payments] cannot
    be read as an array (missing, or not an array), gives the empty record
    set; [getSafeData] always returns, its [catch] absorbing every throw. *)
Theorem getSafeData_malformed_payload (data : JsVal) :
  truthy data && JsType_eqb (typeof data) TObject && negb (isArray data) = false
  \/ (forall elems, read data (lit "payments") <> Normal (JArr elems)) ->
  getSafeData data = DEFAULT_DATA /\ payments (getSafeData data) = [].
Proof.
  intros H.
  assert (E : getSafeData data = DEFAULT_DATA); [|now rewrite E].
  destruct data as [| |b|n|s|elems|props|name|];
    try reflexivity; try now apply getSafeData_not_object.
  rewrite getSafeData_obj. destruct H as [H | H]; [discriminate H|].
  cbn [read] in H.
  destruct (obj_get props (lit "payments")) as [| |b|n|s|entries|ps|nm|];
    try reflexivity.
  now elim (H entries).
Qed.

(** C5 at a top-level array and at an object whose [payments] is a string. *)
Lemma getSafeData_malformed_payload_witness :
  payments (getSafeData (JArr [JObj [(lit "id", JStr (lit "p1"))]])) = []
  /\ payments (getSafeData (JObj [(lit "payments", JStr (lit "p1"))])) = [].
Proof.
  split.
  - exact (proj2 (@getSafeData_malformed_payload
                    (JArr [JObj [(lit "id", JStr (lit "p1"))]])
                    (or_introl eq_refl))).
  - refine (proj2 (@getSafeData_malformed_payload
                     (JObj [(lit "payments", JStr (lit "p1"))])
                     (or_intror _))).
    intros elems. discriminate.
Defined.

(** C10: every record of the normalised set is an object whose fields are
    exactly the twelve canonical ones, in the order of the source; a name
    outside them is not a property of the record. *)
Theorem getSafeData_canonical_fields (data r : JsVal) :
  In r (payments (getSafeData data)) ->
  exists fields,
    r = JObj fields
    /\ map fst fields = CANONICAL_FIELDS
    /\ (forall k, ~ In k CANONICAL_FIELDS -> own_property fields k = None).
Proof.
  intros Hin. destruct (getSafeData_cases data) as [entries E].
  rewrite E in Hin. apply in_map_iff in Hin. destruct Hin as [e [<- _]].
  destruct (record_of_fields e) as [fields [-> Hk]].
  exists fields. split; [reflexivity|]. split; [exact Hk|].
  intros k Hn. apply own_property_None. now rewrite Hk.
Qed.

(** C10 at an entry carrying a field outside the correspondence. *)
Lemma getSafeData_canonical_fields_witness :
  let e := JObj [(lit "id", JStr (lit "p1")); (lit "isAdmin", JBool true)] in
  exists fields,
    record_of e = JObj fields
    /\ map fst fields = CANONICAL_FIELDS
    /\ (forall k, ~ In k CANONICAL_FIELDS -> own_property fields k = None).
Proof.
  intros e.
  refine (@getSafeData_canonical_fields (payload [e]) (record_of e) _).
  left. reflexivity.
Defined.

(** The record set depends on the raw entries only through the properties
    named in [FIELD_MAP]: entries that agree on them have the same record. *)
Lemma normalize_ignores_other_fields (e e' : JsVal) :
  (forall f, In f FIELD_MAP -> read_opt e (snd f) = read_opt e' (snd f)) ->
  normalize e = normalize e'.
Proof.
  intros H. unfold normalize. f_equal. apply mapM_ext.
  intros f Hf. now rewrite (H f Hf).
Qed.

(** ** The text sanitizer *)

(** C2 does not hold of the code: each pattern is removed in one pass over
    the string, and a removal can splice a new occurrence together.  On
    [javajavascript:script:] the result is [javascript:], and on
    [<scr<script></script>ipt>alert(1)</script>] it is a whole script
    element; both results still match the pattern that was to be stripped. *)
Theorem safeToString_spliced_occurrence (host : Host) :
  safeToString host (JStr (lit "javajavascript:script:")) []
  = lit "javascript:"
  /\ contains match_javascript
       (safeToString host (JStr (lit "javajavascript:script:")) []) = true
  /\ safeToString host
       (JStr (lit "<scr<script></script>ipt>alert(1)</script>")) []
     = lit "<script>alert(1)</script>"
  /\ contains match_script
       (safeToString host
          (JStr (lit "<scr<script></script>ipt>alert(1)</script>")) [])
     = true.
Proof. repeat split. Qed.

(** ** The currency sanitizer *)

Section Currency.

Variable host : Host.

Lemma out_of_range_false (q : Q) :
  (0 <= q)%Q -> (q <= 100000000)%Q ->
  num_ltb (Fin q) (of_Z 0) || num_gtb (Fin q) (of_Z 100000000) = false.
Proof.
  intros H0 H1. unfold num_gtb, num_ltb, of_Z.
  apply Qle_bool_iff in H0. apply Qle_bool_iff in H1.
  change (inject_Z 0) with 0%Q. change (inject_Z 100000000) with 100000000%Q.
  now rewrite H0, H1.
Qed.

Lemma out_of_range_true (q : Q) :
  (q < 0)%Q \/ (100000000 < q)%Q ->
  num_ltb (Fin q) (of_Z 0) || num_gtb (Fin q) (of_Z 100000000) = true.
Proof.
  intros H. unfold num_gtb, num_ltb, of_Z.
  change (inject_Z 0) with 0%Q. change (inject_Z 100000000) with 100000000%Q.
  apply orb_true_iff. destruct H as [H | H]; [left | right];
    apply negb_true_iff; apply not_true_is_false; intros E;
    apply Qle_bool_iff in E; apply Qlt_not_le in H; contradiction.
Qed.

(** C3, as the source has it: a finite number within [0, 100000000] gives
    the currency symbol followed by the locale-grouped digits; a finite number
    outside gives the symbol followed by [Invalid], where [safeFormatNumber]
    gives the bare [Invalid]; NaN and the infinities give the default, as
    [null] and [undefined] do. *)
Theorem safeFormatCurrency_numeric (currency d : jsstring) :
  (forall q, (0 <= q)%Q -> (q <= 100000000)%Q ->
     safeFormatCurrency host (JNum (Fin q)) currency d
     = currency ++ toLocaleString host q)
  /\ (forall q, (q < 0)%Q \/ (100000000 < q)%Q ->
       safeFormatCurrency host (JNum (Fin q)) currency d
       = currency ++ lit "Invalid"
       /\ safeFormatNumber host (JNum (Fin q)) d = lit "Invalid")
  /\ (forall n, isFinite n = false ->
       safeFormatCurrency host (JNum n) currency d = d)
  /\ safeFormatCurrency host JNull currency d = d
  /\ safeFormatCurrency host JUndefined currency d = d.
Proof.
  repeat split.
  - intros q H0 H1. unfold safeFormatCurrency.
    cbn [nullish ToNumber bind isNaN isFinite negb orb].
    now rewrite (out_of_range_false H0 H1).
  - unfold safeFormatCurrency.
    cbn [nullish ToNumber bind isNaN isFinite negb orb].
    now rewrite (out_of_range_true H).
  - unfold safeFormatNumber.
    cbn [nullish ToNumber bind isNaN isFinite negb orb].
    now rewrite (out_of_range_true H).
  - intros [| b | q] H; try reflexivity. discriminate H.
Qed.

End Currency.

(** C3 at 500, at 100000000 and at 999999999, with the default symbol. *)
Lemma safeFormatCurrency_numeric_witness :
  safeFormatCurrency UtcHost.host (JNum (of_Z 500)) RUPEE (lit "N/A")
  = RUPEE ++ lit "500"
  /\ safeFormatCurrency UtcHost.host (JNum (of_Z 100000000)) RUPEE (lit "N/A")
     = RUPEE ++ lit "10,00,00,000"
  /\ safeFormatCurrency UtcHost.host (JNum (of_Z 999999999)) RUPEE (lit "N/A")
     = RUPEE ++ lit "Invalid".
Proof.
  pose proof (safeFormatCurrency_numeric UtcHost.host RUPEE (lit "N/A"))
    as [Hin [Hout _]].
  split; [|split].
  - apply (Hin (inject_Z 500)); unfold Qle; simpl; lia.
  - apply (Hin (inject_Z 100000000)); unfold Qle; simpl; lia.
  - apply (Hout (inject_Z 999999999)). right. unfold Qlt; simpl; lia.
Defined.

(** C3 as stated fails: positive infinity is a number outside
    [0, 100000000], and the result is the default [N/A], not the symbol
    followed by [Invalid]. *)
Lemma safeFormatCurrency_infinity :
  num_gtb (Inf false) (of_Z 100000000) = true
  /\ safeFormatCurrency UtcHost.host (JNum (Inf false)) RUPEE (lit "N/A")
     = lit "N/A"
  /\ safeFormatCurrency UtcHost.host (JNum (Inf false)) RUPEE (lit "N/A")
     <> RUPEE ++ lit "Invalid".
Proof. repeat split. discriminate. Qed.

(** ** The date sanitizer *)

(** C4, as the source has it: every falsy input (undefined, null, false, 0,
    NaN, the empty string) gives the default, before any date is built; for a
    truthy input, a date more than one day ahead of the clock gives
    [Invalid Date], an input that does not parse to a date gives the default,
    and any other date gives its locale-formatted date and time, which is not
    empty; an input whose conversion throws gives the default. *)
Theorem safeFormatDate_cases (host : Host) (v : JsVal) (d : jsstring) :
  (truthy v = false -> safeFormatDate host v d = d)
  /\ (truthy v = true ->
      (forall t, new_Date host v = Normal (Some t) ->
         (now host + 86400000 < t)%Z ->
         safeFormatDate host v d = lit "Invalid Date")
      /\ (new_Date host v = Normal None -> safeFormatDate host v d = d)
      /\ (forall t, new_Date host v = Normal (Some t) ->
           (t <= now host + 86400000)%Z ->
           safeFormatDate host v d = toLocaleDateString host t
           /\ safeFormatDate host v d <> []))
  /\ (new_Date host v = Throw -> safeFormatDate host v d = d).
Proof.
  unfold safeFormatDate. split; [|split].
  - now intros ->.
  - intros ->. cbn [negb]. split; [|split].
    + intros t -> Ht. cbn [bind try_catch].
      apply Z.gtb_lt in Ht. now rewrite Ht.
    + now intros ->.
    + intros t -> Ht. cbn [bind try_catch].
      destruct (Z.gtb_spec t (now host + 86400000)); [lia|].
      split; [reflexivity | apply toLocaleDateString_nonempty].
  - intros ->. now destruct (negb (truthy v)).
Qed.

(** C4 at a past date, a date of next year, a string that is no date, and
    the falsy inputs [null] and the empty string, the clock reading
    1 January 2026. *)
Lemma safeFormatDate_cases_witness :
  safeFormatDate UtcHost.host (JStr (lit "2023-11-15")) (lit "N/A")
  = lit "15 Nov 2023, 12:00 am"
  /\ safeFormatDate UtcHost.host (JStr (lit "2027-11-15")) (lit "N/A")
     = lit "Invalid Date"
  /\ safeFormatDate UtcHost.host (JStr (lit "soon")) (lit "N/A") = lit "N/A"
  /\ safeFormatDate UtcHost.host JNull (lit "N/A") = lit "N/A"
  /\ safeFormatDate UtcHost.host (JStr []) (lit "N/A") = lit "N/A".
Proof.
  split; [|split; [|split; [|split]]].
  - refine (proj1 (proj2 (proj2 (proj1 (proj2 (@safeFormatDate_cases
             UtcHost.host (JStr (lit "2023-11-15")) (lit "N/A"))) eq_refl))
             1700006400000%Z eq_refl _)).
    simpl. lia.
  - refine (proj1 (proj1 (proj2 (@safeFormatDate_cases UtcHost.host
             (JStr (lit "2027-11-15")) (lit "N/A"))) eq_refl)
             1826236800000%Z eq_refl _).
    simpl. lia.
  - exact (proj1 (proj2 (proj1 (proj2 (@safeFormatDate_cases UtcHost.host
             (JStr (lit "soon")) (lit "N/A"))) eq_refl)) eq_refl).
  - exact (proj1 (@safeFormatDate_cases UtcHost.host JNull (lit "N/A"))
             eq_refl).
  - exact (proj1 (@safeFormatDate_cases UtcHost.host (JStr []) (lit "N/A"))
             eq_refl).
Defined.

(** C4 as stated fails: the timestamp [0] is the valid past date 1 January
    1970, and the result is the default [N/A], not the formatted date; the
    guard on falsy inputs returns before the date is built. *)
Lemma safeFormatDate_epoch :
  new_Date UtcHost.host (JNum (of_Z 0)) = Normal (Some 0%Z)
  /\ (0 <= now UtcHost.host + 86400000)%Z
  /\ toLocaleDateString UtcHost.host 0 = lit "1 Jan 1970, 12:00 am"
  /\ safeFormatDate UtcHost.host (JNum (of_Z 0)) (lit "N/A") = lit "N/A".
Proof. repeat split. discriminate. Qed.

(** ** The payment-method sanitizer *)

(** C6 does not hold of the code: [PAYMENT_METHODS] is an object literal, so
    the lookup also finds what it inherits from [Object.prototype].  The
    method [constructor] is mapped to the function [Object] and [__proto__]
    to the prototype object: neither is a string. *)
Theorem safePaymentMethod_inherited_property :
  safePaymentMethod UtcHost.host (JStr (lit "constructor")) = JFun (lit "Object")
  /\ typeof (safePaymentMethod UtcHost.host (JStr (lit "constructor")))
     = TFunction
  /\ safePaymentMethod UtcHost.host (JStr (lit "__proto__")) = JObj []
  /\ typeof (safePaymentMethod UtcHost.host (JStr (lit "__proto__")))
     = TObject.
Proof. repeat split. Qed.

Lemma PAYMENT_METHODS_truthy (k : jsstring) (lbl : JsVal) :
  own_property PAYMENT_METHODS k = Some lbl -> truthy lbl = true.
Proof.
  unfold PAYMENT_METHODS. cbn [own_property].
  repeat (destruct (str_eqb _ k); [intros [= <-]; reflexivity|]).
  discriminate.
Qed.

(** C9, as the source has it: a value whose sanitized, lower-cased text is
    one of the five method names gives the label of that name; otherwise,
    when that text is not the name of a property inherited from
    [Object.prototype], the result is the text sanitizer applied to the value
    with default [Unknown], which is [Unknown] for [null] and [undefined] and
    the sanitized text of the value for any other. *)
Theorem safePaymentMethod_lookup (host : Host) (method : JsVal) :
  let key := toLowerCase host (safeToString host method []) in
  (forall lbl, own_property PAYMENT_METHODS key = Some lbl ->
     safePaymentMethod host method = lbl)
  /\ (own_property PAYMENT_METHODS key = None -> inherited key = JUndefined ->
       safePaymentMethod host method
       = JStr (safeToString host method (lit "Unknown")))
  /\ (nullish method = true ->
       safeToString host method (lit "Unknown") = lit "Unknown")
  /\ (nullish method = false ->
       safeToString host method (lit "Unknown") = safeToString host method []
       \/ ToString host method = Throw).
Proof.
  intros key. unfold safePaymentMethod, js_or, obj_get. fold key.
  repeat split.
  - intros lbl H. now rewrite H, (PAYMENT_METHODS_truthy _ H).
  - intros H Hi. now rewrite H, Hi.
  - apply safeToString_nullish.
  - intros H. unfold safeToString. rewrite H.
    destruct (ToString host method); [left | right]; reflexivity.
Qed.

(** C9 at a known method in another case, at [null] and at an unknown
    method. *)
Lemma safePaymentMethod_lookup_witness :
  safePaymentMethod UtcHost.host (JStr (lit " Credit_Card "))
  = JStr (lit "Credit Card")
  /\ safePaymentMethod UtcHost.host JNull = JStr (lit "Unknown")
  /\ safePaymentMethod UtcHost.host (JStr (lit "cash")) = JStr (lit "cash").
Proof.
  split; [|split].
  - exact (proj1 (@safePaymentMethod_lookup UtcHost.host
                    (JStr (lit " Credit_Card "))) _ eq_refl).
  - exact (proj1 (proj2 (@safePaymentMethod_lookup UtcHost.host JNull))
             eq_refl eq_refl).
  - exact (proj1 (proj2 (@safePaymentMethod_lookup UtcHost.host
                           (JStr (lit "cash")))) eq_refl eq_refl).
Defined.

(** C9 as stated fails: [paypal] is none of the five method names, and it is
    mapped to [paypal], not to [Unknown]. *)
Lemma safePaymentMethod_unknown_passes :
  own_property PAYMENT_METHODS
    (toLowerCase UtcHost.host (safeToString UtcHost.host (JStr (lit "paypal")) []))
  = None
  /\ safePaymentMethod UtcHost.host (JStr (lit "paypal")) = JStr (lit "paypal")
  /\ safePaymentMethod UtcHost.host (JStr (lit "paypal"))
     <> JStr (lit "Unknown").
Proof. repeat split. discriminate. Qed.

(** ** The filter *)

(** C7: on the record set of any payload and for any selector, filtering the
    filtered set again changes nothing; the selector [all] gives the whole
    set, unchanged and in order; any other selector gives, in input order,
    exactly the records whose sanitized status is that very string (the
    comparison is [===], so case matters). *)
Theorem filteredPayments_selector (host : Host) (data filter : JsVal) :
  let records := getSafeData data in
  filteredPayments host
    {| payments := filteredPayments host records filter |} filter
  = filteredPayments host records filter
  /\ filteredPayments host records (JStr (lit "all")) = payments records
  /\ (filter <> JStr (lit "all") ->
       filteredPayments host records filter
       = List.filter
           (fun r => strict_eq_str
                       (safeToString host (field r (lit "status")) []) filter)
           (payments records)).
Proof.
  intros records. unfold filteredPayments. cbn [payments].
  destruct (getSafeData_cases data) as [entries E]. fold records in E.
  split; [apply filter_idempotent | split].
  - apply filter_all. intros r Hr. rewrite E in Hr.
    apply in_map_iff in Hr. destruct Hr as [e [<- _]]. apply visible_all.
  - intros Hf. apply filter_ext_in. intros r Hr. rewrite E in Hr.
    apply in_map_iff in Hr. destruct Hr as [e [<- _]].
    unfold record_of. now rewrite visible_status.
Qed.

(** C7 at the statuses [paid], [refunded], [failed] and the selector
    [refunded]: exactly the one refunded record is visible. *)
Lemma filteredPayments_selector_witness :
  let entry status :=
    JObj [(lit "id", JStr status); (lit "status", JStr status)] in
  let data :=
    payload [entry (lit "paid"); entry (lit "refunded"); entry (lit "failed")] in
  filteredPayments UtcHost.host (getSafeData data) (JStr (lit "refunded"))
  = [record_of (entry (lit "refunded"))].
Proof.
  intros entry data.
  refine (eq_trans
            (proj2 (proj2 (@filteredPayments_selector UtcHost.host data
                             (JStr (lit "refunded")))) _) _).
  - discriminate.
  - reflexivity.
Defined.

(** The status [Paid] is not selected by [paid]. *)
Example filteredPayments_case_sensitive :
  filteredPayments UtcHost.host
    (getSafeData
       (payload [JObj [(lit "id", JStr (lit "p1"));
                       (lit "status", JStr (lit "Paid"))]]))
    (JStr (lit "paid"))
  = [].
Proof. reflexivity. Qed.

(** C8: a request that is the identifier of one of the [FILTERS] becomes the
    selector; any other request leaves the selector as it was; hence, from
    the initial [all] and after any sequence of requests, the selector is the
    identifier of one of the [FILTERS]. *)
Theorem handleFilterChange_selector :
  (forall filter f, In f FILTERS ->
     handleFilterChange filter (JStr (id f)) = JStr (id f))
  /\ (forall filter request, ~ is_selector request ->
       handleFilterChange filter request = filter)
  /\ (forall requests, is_selector (filter_after requests)).
Proof.
  split; [|split].
  - exact handleFilterChange_accepts.
  - intros filter request Hn.
    destruct (handleFilterChange_cases filter request) as [[Hs _] | [_ E]];
      [contradiction | exact E].
  - intros requests. apply fold_handleFilterChange.
    exists {| id := lit "all"; label := lit "All" |}.
    split; [now left | reflexivity].
Qed.

(** C8 at the requests [paid], then [Paid], which is refused. *)
Lemma handleFilterChange_selector_witness :
  handleFilterChange (JStr (lit "all")) (JStr (lit "paid")) = JStr (lit "paid")
  /\ handleFilterChange (JStr (lit "paid")) (JStr (lit "Paid"))
     = JStr (lit "paid").
Proof.
  destruct handleFilterChange_selector as [Hyes [Hno _]]. split.
  - apply (Hyes (JStr (lit "all")) {| id := lit "paid"; label := lit "Paid" |}).
    right. left. reflexivity.
  - apply Hno. intros [f [Hf E]]. simpl in Hf.
    destruct Hf as [<- | [<- | [<- | [<- | []]]]]; discriminate E.
Defined.

(** ** The examples of the specification *)

Example one_paid_record :
  let data :=
    payload [JObj [(lit "id", JStr (lit "p1")); (lit "amount", JNum (of_Z 500));
                   (lit "status", JStr (lit "paid"));
                   (lit "method", JStr (lit "credit_card"))]] in
  let visible_records :=
    filteredPayments UtcHost.host (getSafeData data) (JStr (lit "all")) in
  List.length visible_records = 1
  /\ map (fun r => safeFormatCurrency UtcHost.host (field r (lit "amount"))
                     RUPEE (lit "N/A")) visible_records
     = [RUPEE ++ lit "500"]
  /\ map (fun r => safePaymentMethod UtcHost.host (field r (lit "method")))
         visible_records
     = [JStr (lit "Credit Card")]
  /\ map (fun r => field r (lit "status")) visible_records
     = [JStr (lit "paid")].
Proof. repeat split. Qed.

Example identity_by_booking :
  let data :=
    payload [JObj [(lit "booking_id", JStr (lit "b1"));
                   (lit "amount", JNum (of_Z 999999999))]] in
  map (fun r => safeFormatCurrency UtcHost.host (field r (lit "amount"))
                  RUPEE (lit "N/A"))
      (payments (getSafeData data))
  = [RUPEE ++ lit "Invalid"].
Proof. reflexivity. Qed.

(** The [catch] arms at work: a value whose conversions throw is given the
    default by each sanitizer, and [Unknown] by the method sanitizer. *)
Example sanitizers_on_thrower :
  safeToString UtcHost.host JThrower (lit "none") = lit "none"
  /\ safeFormatNumber UtcHost.host JThrower (lit "N/A") = lit "N/A"
  /\ safeFormatCurrency UtcHost.host JThrower RUPEE (lit "N/A") = lit "N/A"
  /\ safeFormatDate UtcHost.host JThrower (lit "N/A") = lit "N/A"
  /\ safePaymentMethod UtcHost.host JThrower = JStr (lit "Unknown")
  /\ getSafeData JThrower = DEFAULT_DATA
  /\ getSafeData (payload [JObj [(lit "id", JStr (lit "p1"))]; JThrower])
     = DEFAULT_DATA.
Proof. repeat split. Qed.

(** ** Plain text through the text sanitizer *)

Lemma ci_eqb_not_letter (p c : N) :
  (p < 65)%N -> ci_eqb p c = true -> c = p.
Proof.
  intros Hp H. unfold ci_eqb, ascii_lower in H.
  apply N.eqb_eq in H.
  destruct (N.leb_spec 65 p); [lia|]. cbn [andb] in H.
  destruct (N.leb_spec 65 c); destruct (N.leb_spec c 90);
    cbn [andb] in H; lia.
Qed.

Lemma prefix_In (eqb : N -> N -> bool) (pat s r : jsstring) (p : N) :
  prefix eqb pat s = Some r -> In p pat ->
  exists c, In c s /\ eqb p c = true.
Proof.
  revert s. induction pat as [|q pat IH]; intros s H Hin; [contradiction|].
  destruct s as [|c s]; simpl in H; [discriminate H|].
  destruct (eqb q c) eqn:E; [|discriminate H].
  destruct Hin as [-> | Hin].
  - exists c. split; [now left | exact E].
  - destruct (IH s H Hin) as [c' [Hc' E']]. exists c'. split; [now right | exact E'].
Qed.

Lemma prefix_suffix (eqb : N -> N -> bool) (pat s r : jsstring) (x : N) :
  prefix eqb pat s = Some r -> In x r -> In x s.
Proof.
  revert s. induction pat as [|q pat IH]; intros s H Hin; simpl in H.
  - destruct s; injection H as <-; exact Hin.
  - destruct s as [|c s]; [discriminate H|].
    destruct (eqb q c); [|discriminate H]. right. now apply IH.
Qed.

Lemma skipn_In (n : nat) (l : jsstring) (x : N) :
  In x (skipn n l) -> In x l.
Proof.
  revert l. induction n as [|n IH]; intros l H; [exact H|].
  destruct l as [|c l]; [exact H|]. right. now apply IH.
Qed.

Lemma plain_text_In (s : jsstring) (c : N) :
  plain_text s = true -> In c s -> c <> 60%N /\ c <> 61%N /\ c <> 58%N.
Proof.
  intros H Hin. unfold plain_text in H. rewrite forallb_forall in H.
  specialize (H c Hin). unfold plain_unit in H.
  apply negb_true_iff in H. apply orb_false_iff in H. destruct H as [H H3].
  apply orb_false_iff in H. destruct H as [H1 H2].
  apply N.eqb_neq in H1, H2, H3. auto.
Qed.

Lemma match_script_plain (s : jsstring) :
  plain_text s = true -> match_script s = None.
Proof.
  intros H. unfold match_script.
  destruct (prefix ci_eqb (lit "<script") s) as [r|] eqn:E; [|reflexivity].
  destruct (@prefix_In ci_eqb _ s r 60%N E) as [c [Hc Hci]]; [now left|].
  apply ci_eqb_not_letter in Hci; [|lia]. subst c.
  destruct (@plain_text_In s _ H Hc) as [Hne _]. now elim Hne.
Qed.

Lemma match_javascript_plain (s : jsstring) :
  plain_text s = true -> match_javascript s = None.
Proof.
  intros H. unfold match_javascript.
  destruct (prefix ci_eqb (lit "javascript:") s) as [r|] eqn:E; [|reflexivity].
  destruct (@prefix_In ci_eqb _ s r 58%N E) as [c [Hc Hci]].
  { cbn. tauto. }
  apply ci_eqb_not_letter in Hci; [|lia]. subst c.
  destruct (@plain_text_In s _ H Hc) as [_ [_ Hne]]. now elim Hne.
Qed.

Lemma match_handler_plain (s : jsstring) :
  plain_text s = true -> match_handler s = None.
Proof.
  intros H. unfold match_handler.
  destruct (prefix N.eqb (lit "on") s) as [r|] eqn:E; [|reflexivity].
  destruct (run is_word r) as [|w]; [reflexivity|].
  destruct (skipn (S w) r) as [|e [|q r']] eqn:Es; try reflexivity.
  destruct (N.eqb e 61) eqn:Ee; [|reflexivity].
  apply N.eqb_eq in Ee. subst e.
  assert (Hin : In 61%N s).
  { apply (@prefix_suffix _ _ _ _ _ E). apply (@skipn_In (S w)). rewrite Es. now left. }
  destruct (@plain_text_In s _ H Hin) as [_ [Hne _]]. now elim Hne.
Qed.

Lemma replace_all_none (m : jsstring -> option nat) (s : jsstring) :
  (forall t, plain_text t = true -> m t = None) ->
  plain_text s = true -> replace_all m s = s.
Proof.
  intros Hm. unfold replace_all.
  induction s as [|c s IH]; intros H; [reflexivity|].
  cbn [strip]. rewrite (Hm _ H). f_equal. apply IH.
  unfold plain_text in *. cbn [forallb] in H.
  now apply andb_true_iff in H.
Qed.

Lemma drop_while_plain (p : N -> bool) (s : jsstring) :
  plain_text s = true -> plain_text (drop_while p s) = true.
Proof.
  induction s as [|c s IH]; intros H; [reflexivity|]. cbn [drop_while].
  destruct (p c); [|exact H]. apply IH.
  unfold plain_text in *. cbn [forallb] in H. now apply andb_true_iff in H.
Qed.

Lemma rev_plain (s : jsstring) :
  plain_text s = true -> plain_text (rev s) = true.
Proof.
  unfold plain_text. rewrite !forallb_forall. intros H c Hc.
  apply H. now apply in_rev.
Qed.

Lemma trim_plain (s : jsstring) :
  plain_text s = true -> plain_text (trim s) = true.
Proof.
  intros H. unfold trim.
  now apply rev_plain, drop_while_plain, rev_plain, drop_while_plain.
Qed.

Lemma drop_while_length (p : N -> bool) (s : jsstring) :
  List.length (drop_while p s) <= List.length s.
Proof.
  induction s as [|c s IH]; simpl; [lia|]. destruct (p c); simpl; lia.
Qed.

Lemma trim_length (s : jsstring) : List.length (trim s) <= List.length s.
Proof.
  unfold trim. rewrite length_rev.
  etransitivity; [apply drop_while_length|]. rewrite length_rev.
  apply drop_while_length.
Qed.

Lemma drop_while_idempotent (p : N -> bool) (s : jsstring) :
  drop_while p (drop_while p s) = drop_while p s.
Proof.
  induction s as [|c s IH]; [reflexivity|]. cbn [drop_while].
  destruct (p c) eqn:E; [exact IH|]. cbn [drop_while]. now rewrite E.
Qed.

Lemma drop_while_snoc (p : N -> bool) (s : jsstring) (c : N) :
  p c = false -> drop_while p (s ++ [c]) = drop_while p s ++ [c].
Proof.
  intros Hc. induction s as [|x s IH]; cbn [drop_while app].
  - now rewrite Hc.
  - destruct (p x); [exact IH | reflexivity].
Qed.

(** What [trim] returns does not start with white space. *)
Lemma drop_while_trim (s : jsstring) :
  drop_while is_space (trim s) = trim s.
Proof.
  unfold trim. destruct (drop_while is_space s) as [|c u] eqn:E;
    [reflexivity|].
  assert (Hc : is_space c = false).
  { destruct (is_space c) eqn:Hc; [|reflexivity].
    pose proof (drop_while_idempotent is_space s) as Hi.
    rewrite E in Hi. cbn [drop_while] in Hi. rewrite Hc in Hi.
    pose proof (drop_while_length is_space u) as Hl. rewrite Hi in Hl.
    simpl in Hl. lia. }
  cbn [rev]. rewrite (@drop_while_snoc _ _ _ Hc), rev_app_distr.
  cbn [rev app drop_while]. now rewrite Hc.
Qed.

Lemma trim_idempotent (s : jsstring) : trim (trim s) = trim s.
Proof.
  unfold trim at 1. rewrite drop_while_trim. unfold trim.
  now rewrite rev_involutive, drop_while_idempotent.
Qed.

Section TextSanitizer.

Variable host : Host.

(** X1: the text sanitizer never lengthens a string and never returns more
    than 500 code units of it; for any value, the result is no longer than
    500 code units unless it is the default. *)
Theorem safeToString_bounded (value : JsVal) (d : jsstring) :
  (forall s, List.length (safeToString host (JStr s) d)
             <= Nat.min 500 (List.length s))
  /\ List.length (safeToString host value d) <= Nat.max 500 (List.length d).
Proof.
  split.
  - intros s. unfold safeToString, replace_all, substring0.
    cbn [nullish ToString bind try_catch]. rewrite length_firstn.
    apply Nat.min_le_compat_l.
    repeat (etransitivity; [apply strip_length|]). apply trim_length.
  - unfold safeToString. destruct (nullish value); [lia|].
    destruct (ToString host value) as [s|]; cbn [bind try_catch]; [|lia].
    unfold substring0. rewrite length_firstn. lia.
Qed.

Lemma safeToString_plain (s d : jsstring) :
  plain_text s = true ->
  safeToString host (JStr s) d = substring0 500 (trim s).
Proof.
  intros H. unfold safeToString. cbn [nullish ToString bind try_catch].
  pose proof (@trim_plain s H) as Ht.
  rewrite (@replace_all_none match_script (trim s) match_script_plain Ht).
  rewrite (@replace_all_none match_handler (trim s) match_handler_plain Ht).
  now rewrite (@replace_all_none match_javascript (trim s)
                 match_javascript_plain Ht).
Qed.

Lemma safeToString_twice_plain (s d d' : jsstring) :
  plain_text s = true -> List.length s <= 500 ->
  safeToString host (JStr (safeToString host (JStr s) d)) d'
  = safeToString host (JStr s) d.
Proof.
  intros H Hl. rewrite (@safeToString_plain s d H).
  assert (E : substring0 500 (trim s) = trim s).
  { apply firstn_all2. pose proof (trim_length s). lia. }
  rewrite E, (@safeToString_plain (trim s) d' (@trim_plain s H)),
    trim_idempotent.
  exact E.
Qed.

(** X2: a string without [<], [=] and [:] is returned trimmed and cut to its
    first 500 code units, otherwise unchanged. *)
Theorem safeToString_plain_text (s d : jsstring) :
  plain_text s = true ->
  safeToString host (JStr s) d = substring0 500 (trim s).
Proof. apply safeToString_plain. Qed.

(** X3: on a string without [<], [=] and [:] and of at most 500 code units,
    sanitizing twice is sanitizing once. *)
Theorem safeToString_idempotent_plain (s d d' : jsstring) :
  plain_text s = true -> List.length s <= 500 ->
  safeToString host (JStr (safeToString host (JStr s) d)) d'
  = safeToString host (JStr s) d.
Proof. apply safeToString_twice_plain. Qed.

(** X5: each sanitizer returns the supplied default when its own conversion
    of the value throws: the text sanitizer when [String(value)] throws, the
    number and currency sanitizers when [Number(value)] throws, the date
    sanitizer when [new Date(value)] throws. *)
Theorem sanitizers_default_on_throw (value : JsVal) (currency d : jsstring) :
  (ToString host value = Throw -> safeToString host value d = d)
  /\ (ToNumber host value = Throw ->
      safeFormatNumber host value d = d
      /\ safeFormatCurrency host value currency d = d)
  /\ (new_Date host value = Throw -> safeFormatDate host value d = d).
Proof.
  split; [|split].
  - apply safeToString_catch.
  - intros H. split.
    + now apply safeFormatNumber_catch.
    + now apply safeFormatCurrency_catch.
  - apply safeFormatDate_catch.
Qed.

(** X4: the currency sanitizer is the number sanitizer behind the currency
    symbol: either both return the default, or the currency result is the
    symbol followed by the number result. *)
Theorem safeFormatCurrency_prefixes_number (value : JsVal)
        (currency d : jsstring) :
  (safeFormatNumber host value d = d
   /\ safeFormatCurrency host value currency d = d)
  \/ safeFormatCurrency host value currency d
     = currency ++ safeFormatNumber host value d.
Proof.
  unfold safeFormatNumber, safeFormatCurrency.
  destruct (nullish value); [now left|].
  destruct (ToNumber host value) as [num|]; cbn [bind try_catch]; [|now left].
  destruct (isNaN num || negb (isFinite num)); cbn [try_catch]; [now left|].
  right. now destruct (num_ltb num (of_Z 0) || num_gtb num (of_Z 100000000)).
Qed.

End TextSanitizer.

(** X2 at a padded title. *)
Lemma safeToString_plain_text_witness :
  safeToString UtcHost.host (JStr (lit "  Sea View 2BHK ")) []
  = lit "Sea View 2BHK".
Proof.
  exact (@safeToString_plain_text UtcHost.host (lit "  Sea View 2BHK ") []
           eq_refl).
Defined.

(** X3 at a padded title. *)
Lemma safeToString_idempotent_plain_witness :
  safeToString UtcHost.host
    (JStr (safeToString UtcHost.host (JStr (lit "  Sea View 2BHK ")) [])) []
  = safeToString UtcHost.host (JStr (lit "  Sea View 2BHK ")) [].
Proof.
  refine (@safeToString_idempotent_plain UtcHost.host
            (lit "  Sea View 2BHK ") [] [] eq_refl _).
  simpl. lia.
Defined.

(** X5 at an array one element of which throws when converted, and at a
    payload object with a [toString] key, whose conversions raise a
    TypeError. *)
Lemma sanitizers_default_on_throw_witness :
  let a := JArr [JStr (lit "a"); JThrower] in
  let o := JObj [(lit "toString", JStr (lit "x"))] in
  safeToString UtcHost.host a (lit "-") = lit "-"
  /\ safeFormatNumber UtcHost.host a (lit "-") = lit "-"
  /\ safeFormatCurrency UtcHost.host a RUPEE (lit "-") = lit "-"
  /\ safeFormatDate UtcHost.host a (lit "-") = lit "-"
  /\ safeToString UtcHost.host o (lit "-") = lit "-"
  /\ safeFormatCurrency UtcHost.host o RUPEE (lit "-") = lit "-".
Proof.
  intros a o.
  pose proof (@sanitizers_default_on_throw UtcHost.host a RUPEE (lit "-"))
    as [Hs [Hn Hd]].
  pose proof (@sanitizers_default_on_throw UtcHost.host o RUPEE (lit "-"))
    as [Hs' [Hn' _]].
  split; [|split; [|split; [|split; [|split]]]].
  - exact (Hs eq_refl).
  - exact (proj1 (Hn eq_refl)).
  - exact (proj2 (Hn eq_refl)).
  - exact (Hd eq_refl).
  - exact (Hs' eq_refl).
  - exact (proj2 (Hn' eq_refl)).
Defined.


(** ** More on the record normaliser *)

Lemma getSafeData_payload (entries : list JsVal) :
  getSafeData (payload entries)
  = try_catch
      (mapped <- mapM normalize entries ;;
       kept <- filterM has_identity mapped ;;
       Normal {| payments := kept |})
      DEFAULT_DATA.
Proof. unfold payload. now rewrite getSafeData_obj. Qed.

(** X6: the normaliser is all or nothing: if reading one entry of the
    [payments] array throws, the whole record set is empty, whatever the
    other entries are. *)
Theorem getSafeData_all_or_nothing (props : list (jsstring * JsVal))
        (entries : list JsVal) (e : JsVal) :
  obj_get props (lit "payments") = JArr entries ->
  In e entries -> normalize e = Throw ->
  getSafeData (JObj props) = DEFAULT_DATA.
Proof.
  intros Hp Hin He. rewrite getSafeData_obj, Hp.
  now rewrite (@mapM_throw _ _ normalize entries e Hin He).
Qed.

(** X6 at a valid entry followed by one whose reads throw. *)
Lemma getSafeData_all_or_nothing_witness :
  getSafeData (payload [JObj [(lit "id", JStr (lit "p1"))]; JThrower])
  = DEFAULT_DATA.
Proof.
  refine (@getSafeData_all_or_nothing
            [(lit "payments", JArr [JObj [(lit "id", JStr (lit "p1"))]; JThrower])]
            [JObj [(lit "id", JStr (lit "p1"))]; JThrower] JThrower
            eq_refl _ eq_refl).
  right. left. reflexivity.
Defined.

(** X7: the record set depends on the raw entries only through the twelve
    properties the normaliser reads: two payloads whose entries agree, one by
    one, on those reads have the same record set, whatever else the entries
    carry. *)
Theorem getSafeData_ignores_other_fields (entries entries' : list JsVal) :
  Forall2 same_raw_fields entries entries' ->
  getSafeData (payload entries) = getSafeData (payload entries').
Proof.
  intros H. rewrite !getSafeData_payload.
  assert (E : mapM normalize entries = mapM normalize entries').
  { induction H as [|e e' l l' He _ IH]; [reflexivity|]. cbn [mapM].
    now rewrite (@normalize_ignores_other_fields e e' He), IH. }
  now rewrite E.
Qed.

(** X7 at an entry and the same entry with a field more. *)
Lemma getSafeData_ignores_other_fields_witness :
  getSafeData (payload [JObj [(lit "id", JStr (lit "p1"))]])
  = getSafeData
      (payload [JObj [(lit "role", JStr (lit "admin"));
                      (lit "id", JStr (lit "p1"))]]).
Proof.
  apply getSafeData_ignores_other_fields. constructor; [|constructor].
  intros f Hf. cbn in Hf.
  repeat (destruct Hf as [<- | Hf]; [reflexivity|]). contradiction.
Defined.

Lemma records_identified (data r : JsVal) :
  In r (payments (getSafeData data)) ->
  truthy (field r (lit "id")) || truthy (field r (lit "bookingId")) = true.
Proof.
  intros Hin. destruct (getSafeData_cases data) as [entries E].
  rewrite E in Hin. apply in_map_iff in Hin. destruct Hin as [e [<- He]].
  apply filter_In in He. exact (proj2 He).
Qed.

(** X8: every record of the normalised set has a truthy [id] or a truthy
    [bookingId]. *)
Theorem getSafeData_records_identified (data r : JsVal) :
  In r (payments (getSafeData data)) ->
  truthy (field r (lit "id")) || truthy (field r (lit "bookingId")) = true.
Proof. apply records_identified. Qed.

(** X8 at a record admitted by its booking identifier. *)
Lemma getSafeData_records_identified_witness :
  let e := JObj [(lit "booking_id", JStr (lit "b1"))] in
  truthy (field (record_of e) (lit "id"))
  || truthy (field (record_of e) (lit "bookingId")) = true.
Proof.
  intros e.
  refine (@getSafeData_records_identified (payload [e]) (record_of e) _).
  left. reflexivity.
Defined.

Lemma getSafeData_canonical_fields_aux (data r : JsVal) :
  In r (payments (getSafeData data)) -> exists fields, r = JObj fields.
Proof.
  intros Hin. destruct (getSafeData_cases data) as [entries E].
  rewrite E in Hin. apply in_map_iff in Hin. destruct Hin as [e [<- _]].
  eexists. reflexivity.
Qed.

(** ** The helpers of the component: facts *)

Section ComponentFacts.

Variable host : Host.

Lemma getPaymentProperty_obj (props : list (jsstring * JsVal))
      (k : jsstring) (d : JsVal) :
  getPaymentProperty (JObj props) k d
  = if nullish (obj_get props k) then d else obj_get props k.
Proof. reflexivity. Qed.

(** X10: for the canonical field names, which are the names the source
    passes, [getPaymentProperty] gives the default when the payment is falsy
    or not an object, when the read throws, and when the property is missing
    ([undefined]) or [null]; otherwise it gives the value of the property;
    hence it never returns [null] or [undefined] when its default is
    neither. *)
Theorem getPaymentProperty_cases (payment : JsVal) (k : jsstring)
        (d : JsVal) :
  In k CANONICAL_FIELDS ->
  (truthy payment = false \/ JsType_eqb (typeof payment) TObject = false
   \/ read payment k = Throw
   \/ read payment k = Normal JUndefined \/ read payment k = Normal JNull ->
   getPaymentProperty payment k d = d)
  /\ (forall v, truthy payment = true ->
       JsType_eqb (typeof payment) TObject = true ->
       read payment k = Normal v -> nullish v = false ->
       getPaymentProperty payment k d = v)
  /\ (nullish d = false -> nullish (getPaymentProperty payment k d) = false).
Proof.
  intros _. unfold getPaymentProperty. split; [|split].
  - intros [H | [H | [H | [H | H]]]]; rewrite H; cbn [negb orb];
      try reflexivity;
      try (now rewrite orb_true_r);
      now destruct (negb (truthy payment)
                    || negb (JsType_eqb (typeof payment) TObject)).
  - intros v Ht Ho Hr Hv. rewrite Ht, Ho, Hr. cbn [negb orb bind try_catch].
    now rewrite Hv.
  - intros Hd.
    destruct (negb (truthy payment)
              || negb (JsType_eqb (typeof payment) TObject)); [exact Hd|].
    destruct (read payment k) as [v|]; cbn [bind try_catch]; [|exact Hd].
    destruct (nullish v) eqn:E; [exact Hd | exact E].
Qed.

Lemma truthy_or_default (v : JsVal) :
  truthy (if nullish v then JStr [] else v) = truthy v.
Proof. now destruct v. Qed.

Lemma truthy_not_nullish (v : JsVal) : truthy v = true -> nullish v = false.
Proof. now destruct v. Qed.

(** X9: the identifier shown for a record of the normalised set never is the
    random placeholder: it is the sanitized [id] when [id] is truthy, and
    [payment-] followed by the sanitized [bookingId] otherwise. *)
Theorem getSafePaymentId_of_record (data r : JsVal) (random : jsstring) :
  In r (payments (getSafeData data)) ->
  getSafePaymentId host random r
  = if truthy (field r (lit "id"))
    then safeToString host (field r (lit "id")) []
    else lit "payment-" ++ safeToString host (field r (lit "bookingId")) [].
Proof.
  intros Hin. pose proof (@records_identified data r Hin) as Hid.
  destruct (@getSafeData_canonical_fields_aux data r Hin) as [fields ->].
  unfold getSafePaymentId. rewrite !getPaymentProperty_obj, !truthy_or_default.
  cbn [field] in *.
  destruct (truthy (obj_get fields (lit "id"))) eqn:E1; cbn [try_catch].
  - now rewrite (@truthy_not_nullish _ E1).
  - cbn [orb] in Hid. rewrite Hid. cbn [try_catch].
    now rewrite (@truthy_not_nullish _ Hid).
Qed.

End ComponentFacts.

(** X10 at a record without status, at a record with a status, and at a
    payment that is a string. *)
Lemma getPaymentProperty_cases_witness :
  let r := record_of (JObj [(lit "id", JStr (lit "p1"));
                            (lit "status", JStr (lit "paid"))]) in
  getPaymentProperty r (lit "amount") (JStr []) = JStr []
  /\ getPaymentProperty r (lit "status") (JStr []) = JStr (lit "paid")
  /\ getPaymentProperty (JStr (lit "p1")) (lit "status") (JStr []) = JStr [].
Proof.
  intros r. split; [|split].
  - refine (proj1 (@getPaymentProperty_cases r (lit "amount") (JStr []) _) _).
    + cbn. tauto.
    + right. right. right. left. reflexivity.
  - refine (proj1 (proj2 (@getPaymentProperty_cases r (lit "status")
                            (JStr []) _))
              (JStr (lit "paid")) eq_refl eq_refl eq_refl eq_refl).
    cbn. tauto.
  - refine (proj1 (@getPaymentProperty_cases (JStr (lit "p1")) (lit "status")
                     (JStr []) _) _).
    + cbn. tauto.
    + right. left. reflexivity.
Defined.

(** X9 at a record admitted by its booking identifier. *)
Lemma getSafePaymentId_of_record_witness :
  let e := JObj [(lit "booking_id", JStr (lit "b1"))] in
  getSafePaymentId UtcHost.host (lit "k3x9q0a1z") (record_of e)
  = lit "payment-b1".
Proof.
  intros e.
  refine (@getSafePaymentId_of_record UtcHost.host (payload [e]) (record_of e)
            (lit "k3x9q0a1z") _).
  left. reflexivity.
Defined.

Section StatusAndReceipt.

Variable host : Host.

Lemma STATUS_COLORS_truthy (k : jsstring) (c : JsVal) :
  own_property STATUS_COLORS k = Some c -> truthy c = true.
Proof.
  unfold STATUS_COLORS. cbn [own_property].
  repeat (destruct (str_eqb _ k); [intros [= <-]; reflexivity|]).
  discriminate.
Qed.

(** X11: [getStatusColor] gives the style recorded for a status whose
    sanitized text is [paid], [refunded], [cancelled] or [failed] (the match
    is case-sensitive: the text is not lower-cased), and the neutral style,
    which is also the style of [failed], for any other status whose text is
    not the name of a property inherited from [Object.prototype]. *)
Theorem getStatusColor_lookup (status : JsVal) :
  let key := safeToString host status [] in
  (forall c, own_property STATUS_COLORS key = Some c ->
     getStatusColor host status = c)
  /\ (own_property STATUS_COLORS key = None -> inherited key = JUndefined ->
       getStatusColor host status = JStr NEUTRAL_COLOR)
  /\ own_property STATUS_COLORS (lit "failed") = Some (JStr NEUTRAL_COLOR).
Proof.
  intros key. unfold getStatusColor, js_or, obj_get. fold key.
  repeat split.
  - intros c H. now rewrite H, (@STATUS_COLORS_truthy _ _ H).
  - intros H Hi. now rewrite H, Hi.
Qed.

(** X15: for a payment whose [id] is a non-empty string without [<], [=]
    and [:] and of at most 500 code units, the identifier shown on the card
    is the trimmed [id], and the receipt actions address
    [/api/receipt/] followed by that same identifier: the second
    sanitization, in [handleReceiptAction], changes nothing. *)
Theorem receipt_of_plain_id (props : list (jsstring * JsVal))
        (s random : jsstring) :
  obj_get props (lit "id") = JStr s ->
  s <> [] -> plain_text s = true -> List.length s <= 500 ->
  let paymentId := getSafePaymentId host random (JObj props) in
  paymentId = trim s
  /\ handleReceiptAction host (JStr paymentId) (JStr (lit "view"))
     = [WindowOpen (lit "/api/receipt/" ++ trim s) (lit "_blank")]
  /\ handleReceiptAction host (JStr paymentId) (JStr (lit "download"))
     = [AnchorDownload (lit "/api/receipt/" ++ trim s)
          (lit "Rooms4U_Receipt_" ++ trim s ++ lit ".pdf")].
Proof.
  intros Hid Hne Hp Hl paymentId.
  assert (E1 : safeToString host (JStr s) [] = trim s).
  { rewrite (@safeToString_plain host s [] Hp).
    apply firstn_all2. pose proof (trim_length s). lia. }
  assert (E : paymentId = trim s).
  { unfold paymentId, getSafePaymentId.
    rewrite !getPaymentProperty_obj, Hid. cbn [nullish].
    destruct s as [|c s']; [now elim Hne|]. cbn [truthy try_catch].
    exact E1. }
  assert (E2 : safeToString host (JStr (trim s)) [] = trim s).
  { rewrite <- E1 at 1.
    rewrite (@safeToString_twice_plain host s [] [] Hp Hl). exact E1. }
  rewrite E. unfold handleReceiptAction. rewrite E2. now repeat split.
Qed.

End StatusAndReceipt.

(** X11 at the status [paid] and at the status [Paid]. *)
Lemma getStatusColor_lookup_witness :
  getStatusColor UtcHost.host (JStr (lit "paid"))
  = JStr (lit "bg-green-900/20 text-green-400 border border-green-800/30")
  /\ getStatusColor UtcHost.host (JStr (lit "Paid")) = JStr NEUTRAL_COLOR.
Proof.
  split.
  - exact (proj1 (@getStatusColor_lookup UtcHost.host (JStr (lit "paid")))
             _ eq_refl).
  - exact (proj1 (proj2 (@getStatusColor_lookup UtcHost.host
                           (JStr (lit "Paid")))) eq_refl eq_refl).
Defined.

(** X15 at the identifier [ pay_001 ]. *)
Lemma receipt_of_plain_id_witness :
  handleReceiptAction UtcHost.host
    (JStr (getSafePaymentId UtcHost.host (lit "k3x9q0a1z")
             (JObj [(lit "id", JStr (lit " pay_001 "))])))
    (JStr (lit "view"))
  = [WindowOpen (lit "/api/receipt/pay_001") (lit "_blank")].
Proof.
  refine (proj1 (proj2 (@receipt_of_plain_id UtcHost.host
                          [(lit "id", JStr (lit " pay_001 "))]
                          (lit " pay_001 ") (lit "k3x9q0a1z")
                          eq_refl _ eq_refl _))).
  - discriminate.
  - simpl. lia.
Defined.

(** ** More on the filter *)

Lemma visible_status_eq (host : Host) (filter payment : JsVal) :
  filter <> JStr (lit "all") -> visible host filter payment = true ->
  exists status, filter = JStr status.
Proof.
  intros Hf H. unfold visible in H.
  destruct (negb (truthy payment) || negb (JsType_eqb (typeof payment) TObject));
    [discriminate H|].
  destruct (strict_eq_str (lit "all") filter) eqn:E.
  - apply strict_eq_str_eq in E. contradiction.
  - destruct (read payment (lit "status")) as [st|]; cbn [bind try_catch] in H;
      [|discriminate H].
    apply strict_eq_str_eq in H. eexists. exact H.
Qed.

Lemma visible_status_unique (host : Host) (f g payment : JsVal) :
  f <> JStr (lit "all") -> g <> JStr (lit "all") ->
  visible host f payment = true -> visible host g payment = true -> f = g.
Proof.
  intros Hf Hg H1 H2. unfold visible in H1, H2.
  destruct (negb (truthy payment) || negb (JsType_eqb (typeof payment) TObject));
    [discriminate H1|].
  destruct (strict_eq_str (lit "all") f) eqn:Ef;
    [apply strict_eq_str_eq in Ef; contradiction|].
  destruct (strict_eq_str (lit "all") g) eqn:Eg;
    [apply strict_eq_str_eq in Eg; contradiction|].
  destruct (read payment (lit "status")) as [st|]; cbn [bind try_catch] in H1, H2;
    [|discriminate H1].
  apply strict_eq_str_eq in H1, H2. congruence.
Qed.

(** X12: the selectors other than [all] cut the record set into disjoint
    parts: a payment visible under one of them is visible under no other, and
    every visible payment is one of the set. *)
Theorem filteredPayments_disjoint (host : Host) (safeData : SafeData)
        (f g payment : JsVal) :
  f <> JStr (lit "all") -> g <> JStr (lit "all") -> f <> g ->
  In payment (filteredPayments host safeData f) ->
  In payment (payments safeData)
  /\ ~ In payment (filteredPayments host safeData g).
Proof.
  intros Hf Hg Hfg Hin. unfold filteredPayments in *.
  apply filter_In in Hin. destruct Hin as [Hin Hv]. split; [exact Hin|].
  intros Hin'. apply filter_In in Hin'. destruct Hin' as [_ Hv'].
  apply Hfg. exact (@visible_status_unique host f g payment Hf Hg Hv Hv').
Qed.

(** X12 at a paid record, under [paid] and [refunded]. *)
Lemma filteredPayments_disjoint_witness :
  let r := record_of (JObj [(lit "id", JStr (lit "p1"));
                            (lit "status", JStr (lit "paid"))]) in
  ~ In r (filteredPayments UtcHost.host {| payments := [r] |}
            (JStr (lit "refunded"))).
Proof.
  intros r.
  refine (proj2 (@filteredPayments_disjoint UtcHost.host {| payments := [r] |}
                   (JStr (lit "paid")) (JStr (lit "refunded")) r _ _ _ _));
    try discriminate.
  left. reflexivity.
Defined.

Lemma handleFilterChange_valid (filter request : JsVal) :
  handleFilterChange filter request
  = if valid_request request then request else filter.
Proof.
  unfold handleFilterChange, valid_request.
  now destruct (JsType_eqb (typeof request) TString
                && existsb (fun f => strict_eq_str (id f) request) FILTERS).
Qed.

Lemma last_nonempty (A : Type) (d d' : A) (l : list A) (y : A) :
  last (y :: l) d = last (y :: l) d'.
Proof.
  revert y. induction l as [|z l IH]; intros y; [reflexivity|].
  change (last (z :: l) d = last (z :: l) d'). apply IH.
Qed.

Lemma last_cons (A : Type) (x d : A) (l : list A) :
  last (x :: l) d = last l x.
Proof.
  destruct l as [|y l]; [reflexivity|].
  change (last (y :: l) d = last (y :: l) x). apply last_nonempty.
Qed.

Lemma fold_handleFilterChange_last (requests : list JsVal) (filter : JsVal) :
  fold_left handleFilterChange requests filter
  = last (List.filter valid_request requests) filter.
Proof.
  revert filter. induction requests as [|r requests IH]; intros filter;
    [reflexivity|].
  cbn [fold_left List.filter]. rewrite IH, handleFilterChange_valid.
  destruct (valid_request r); [now rewrite last_cons | reflexivity].
Qed.

(** X13: after any sequence of requests the selector is the last request
    that names one of the [FILTERS], and [all] if there was none: refused
    requests leave no trace. *)
Theorem filter_after_last_valid (requests : list JsVal) :
  filter_after requests
  = last (List.filter valid_request requests) (JStr (lit "all")).
Proof. apply fold_handleFilterChange_last. Qed.

(** ** The view *)

Lemma filteredPayments_all (host : Host) (data : JsVal) :
  filteredPayments host (getSafeData data) (JStr (lit "all"))
  = payments (getSafeData data).
Proof.
  unfold filteredPayments. apply filter_all. intros r Hr.
  destruct (@getSafeData_canonical_fields_aux data r Hr) as [fields ->].
  apply visible_all.
Qed.

(** X14: the title [No payments found] is shown only under a selector other
    than [all] and when the record set is not empty; an empty record set
    always shows [No payments available]; under [all] a record set that is
    not empty never shows the empty-state card. *)
Theorem empty_state_cases (host : Host) (data filter : JsVal) :
  (empty_state host data filter = Some NoPaymentsFound ->
   filter <> JStr (lit "all") /\ payments (getSafeData data) <> [])
  /\ (payments (getSafeData data) = [] ->
      empty_state host data filter = Some NoPaymentsAvailable)
  /\ (payments (getSafeData data) <> [] ->
      empty_state host data (JStr (lit "all")) = None).
Proof.
  pose proof (filteredPayments_all host data) as Hall.
  unfold empty_state. split; [|split].
  - intros H. split.
    + intros ->. rewrite Hall in H.
      destruct (payments (getSafeData data)); discriminate H.
    + intros E. unfold filteredPayments in H. rewrite E in H.
      discriminate H.
  - intros E. unfold filteredPayments. now rewrite E.
  - intros Hne. rewrite Hall.
    destruct (payments (getSafeData data)); [now elim Hne | reflexivity].
Qed.

(** X14 at a payload with one paid record, under [refunded] and under
    [all], and at an empty payload. *)
Lemma empty_state_cases_witness :
  let e := JObj [(lit "id", JStr (lit "p1")); (lit "status", JStr (lit "paid"))] in
  (JStr (lit "refunded") <> JStr (lit "all")
   /\ payments (getSafeData (payload [e])) <> [])
  /\ empty_state UtcHost.host (payload [e]) (JStr (lit "all")) = None
  /\ empty_state UtcHost.host (payload []) (JStr (lit "refunded"))
     = Some NoPaymentsAvailable.
Proof.
  intros e. split; [|split].
  - exact (proj1 (@empty_state_cases UtcHost.host (payload [e])
                    (JStr (lit "refunded"))) eq_refl).
  - refine (proj2 (proj2 (@empty_state_cases UtcHost.host (payload [e])
                            (JStr (lit "all")))) _).
    discriminate.
  - exact (proj1 (proj2 (@empty_state_cases UtcHost.host (payload [])
                           (JStr (lit "refunded")))) eq_refl).
Defined.
